(** * Stream versus query reconciliation ([stream_compare.py])

    A shallow embedding of the comparison tool: the record normaliser
    ([parse_trades_from_result]), the live collector ([StreamState],
    [subscribe_and_collect]), the paginated query loop with its retry
    policy and the reconciler ([run_query_and_compare]).

    Scope of the embedding.
    - A decoded payload is a JSON value: [None], booleans, integers,
      strings, lists and dicts.  Floating point numbers are left out (no
      field the program reads is a float).
    - A Python [str] is a sequence of code points; the embedding covers
      the code points below 256, one [ascii] each.
    - A dict is the list of its items in insertion order, keys distinct.
    - The three CSV files are append-only lists of rows of four text
      fields; quoting and parsing of the on-disk format is the [csv]
      module's business and is taken to round-trip.
    - The remote endpoint is a finite script of responses, one for every
      call of [client.execute]; [print] is left out; [time.sleep] and
      every request are recorded in an event log. *)

From Stdlib Require Import ZArith QArith String Ascii List DecimalString DecimalPos.
From stdpp Require Import base gmap strings list.

Local Open Scope string_scope.
Local Open Scope list_scope.
Local Open Scope Z_scope.
Set Warnings "-register-all".

(** ** Python values *)

Inductive json : Type :=
| JNull
| JBool (b : bool)
| JInt (n : Z)
| JStr (s : string)
| JList (xs : list json)
| JDict (kvs : list (string * json)).

Inductive exn : Type :=
| AttributeError
| TypeError
| UnboundLocalError
| ZeroDivisionError
| ConnectionError        (* the three retried transport errors *)
| OtherError.            (* any other exception of [client.execute] *)

(** Outcome of a computation that may raise. *)
Inductive exc (A : Type) : Type :=
| Ok (a : A)
| Raise (e : exn).
Arguments Ok {A} a.
Arguments Raise {A} e.

(** Sequencing: an exception of the first computation ends the whole. *)
Definition exc_bind {A B : Type} (m : exc A) (f : A -> exc B) : exc B :=
  match m with
  | Ok a => f a
  | Raise e => Raise e
  end.

Notation "'let*' x ':=' m 'in' k" := (exc_bind m (fun x => k))
  (at level 10, x name, m at level 100, k at level 200).

(** [bool(v)] *)
Definition py_truthy (v : json) : bool :=
  match v with
  | JNull => false
  | JBool b => b
  | JInt n => negb (n =? 0)
  | JStr s => negb (String.eqb s "")
  | JList xs => match xs with [] => false | _ => true end
  | JDict kvs => match kvs with [] => false | _ => true end
  end.

(** [a or b] *)
Definition py_or (a b : json) : json := if py_truthy a then a else b.

(** [v is None] *)
Definition py_is_none (v : json) : bool :=
  match v with JNull => true | _ => false end.

Fixpoint dict_get (k : string) (kvs : list (string * json)) : option json :=
  match kvs with
  | [] => None
  | (k', v) :: rest => if String.eqb k k' then Some v else dict_get k rest
  end.

(** [k in d] for a dict [d] *)
Definition dict_mem (k : string) (kvs : list (string * json)) : bool :=
  match dict_get k kvs with Some _ => true | None => false end.

(** [v.get(k)]: only a dict has the method; any other value raises
    [AttributeError]. *)
Definition py_get (v : json) (k : string) : exc json :=
  match v with
  | JDict kvs => Ok (default JNull (dict_get k kvs))
  | _ => Raise AttributeError
  end.

(** ** [str()] and [repr()] *)

Definition hex_digit (n : N) : ascii :=
  ascii_of_N (if (n <? 10)%N then 48 + n else 87 + n)%N.

(** [\xhh], two lower-case hexadecimal digits *)
Definition hex_escape (c : ascii) : string :=
  let n := N_of_ascii c in
  String "\" (String "x" (String (hex_digit (n / 16)) (String (hex_digit (n mod 16)) EmptyString))).

Definition squote : ascii := ascii_of_N 39.
Definition dquote : ascii := ascii_of_N 34.

Fixpoint string_mem (c : ascii) (s : string) : bool :=
  match s with
  | EmptyString => false
  | String c' s' => Ascii.eqb c c' || string_mem c s'
  end.

(** One character of [repr(s)] when [q] is the chosen quote. *)
Definition repr_char (q c : ascii) : string :=
  let n := N_of_ascii c in
  if Ascii.eqb c q || Ascii.eqb c "\" then String "\" (String c EmptyString)
  else if (n =? 9)%N then "\t"
  else if (n =? 10)%N then "\n"
  else if (n =? 13)%N then "\r"
  else if (n <? 32)%N || (n =? 127)%N then hex_escape c
  else if (n <? 127)%N then String c EmptyString
  else if (n <=? 160)%N || (n =? 173)%N then hex_escape c
  else String c EmptyString.

Fixpoint repr_chars (q : ascii) (s : string) : string :=
  match s with
  | EmptyString => EmptyString
  | String c s' => repr_char q c +:+ repr_chars q s'
  end.

(** [repr(s)] of a string: single quotes, unless the text has a single
    quote and no double quote. *)
Definition repr_str (s : string) : string :=
  let q := if string_mem squote s && negb (string_mem dquote s)
           then dquote else squote in
  String q (repr_chars q s +:+ String q EmptyString).

(** [str(n)] of an integer *)
Definition str_int (n : Z) : string := NilZero.string_of_int (Z.to_int n).

Definition join_comma (parts : list string) : string := String.concat ", " parts.

Fixpoint py_repr (v : json) : string :=
  match v with
  | JNull => "None"
  | JBool b => if b then "True" else "False"
  | JInt n => str_int n
  | JStr s => repr_str s
  | JList xs => "[" +:+ join_comma (List.map py_repr xs) +:+ "]"
  | JDict kvs =>
      "{" +:+ join_comma (List.map (fun kv => repr_str (fst kv) +:+ ": " +:+ py_repr (snd kv)) kvs) +:+ "}"
  end.

(** [str(v)] *)
Definition py_str (v : json) : string :=
  match v with
  | JStr s => s
  | _ => py_repr v
  end.

(** ** String methods used by the program *)

(** [s.replace("Z", "")] *)
Fixpoint remove_Z (s : string) : string :=
  match s with
  | EmptyString => EmptyString
  | String c s' => if Ascii.eqb c "Z" then remove_Z s' else String c (remove_Z s')
  end.

(** [c.isspace()], for the code points below 256 *)
Definition is_space (c : ascii) : bool :=
  let n := N_of_ascii c in
  ((9 <=? n) && (n <=? 13) || (28 <=? n) && (n <=? 32) || (n =? 133) || (n =? 160))%N.

Fixpoint lstrip (s : string) : string :=
  match s with
  | EmptyString => EmptyString
  | String c s' => if is_space c then lstrip s' else s
  end.

Fixpoint rstrip (s : string) : string :=
  match s with
  | EmptyString => EmptyString
  | String c s' =>
      let r := rstrip s' in
      if is_space c && String.eqb r EmptyString then EmptyString else String c r
  end.

(** [s.strip()] *)
Definition strip (s : string) : string := rstrip (lstrip s).

(** [s[:n]] *)
Definition slice_to (n : nat) (s : string) : string := String.substring 0 n s.

(** ** Comparisons *)

(** [bool] is a subclass of [int]. *)
Definition as_int (v : json) : option Z :=
  match v with
  | JInt n => Some n
  | JBool b => Some (if b then 1 else 0)
  | _ => None
  end.

(** [a == b] *)
Fixpoint py_eq (a : json) : json -> bool :=
  match a with
  | JNull => fun b => py_is_none b
  | JStr s => fun b => match b with JStr t => String.eqb s t | _ => false end
  | JList xs => fun b =>
      match b with
      | JList ys =>
          (fix go (xs ys : list json) : bool :=
             match xs, ys with
             | [], [] => true
             | x :: xs', y :: ys' => py_eq x y && go xs' ys'
             | _, _ => false
             end) xs ys
      | _ => false
      end
  | JDict kvs => fun b =>
      match b with
      | JDict kvs' =>
          (length kvs =? length kvs')%nat &&
          (fix go (kvs : list (string * json)) : bool :=
             match kvs with
             | [] => true
             | (k, v) :: rest =>
                 match dict_get k kvs' with
                 | Some w => py_eq v w
                 | None => false
                 end && go rest
             end) kvs
      | _ => false
      end
  | _ => fun b =>
      match as_int a, as_int b with
      | Some x, Some y => x =? y
      | _, _ => false
      end
  end.

(** [a < b]: strings by code points, integers by value, lists by their
    first differing element; every other pair raises [TypeError]. *)
Fixpoint py_lt (a b : json) : exc bool :=
  match a, b with
  | JStr s, JStr t => Ok (String.ltb s t)
  | JList xs, JList ys =>
      (fix go (xs ys : list json) : exc bool :=
         match xs, ys with
         | [], [] => Ok false
         | [], _ :: _ => Ok true
         | _ :: _, [] => Ok false
         | x :: xs', y :: ys' => if py_eq x y then go xs' ys' else py_lt x y
         end) xs ys
  | _, _ =>
      match as_int a, as_int b with
      | Some x, Some y => Ok (x <? y)
      | _, _ => Raise TypeError
      end
  end.

(** [a > b] *)
Definition py_gt (a b : json) : exc bool := py_lt b a.

(** ** Configuration constants *)

Definition QUERY_LIMIT : Z := 25000.
Definition QUERY_MAX_RETRIES : Z := 4.
Definition QUERY_RETRY_DELAY : Z := 5.

(** ** [_at_time_boundary] *)

(** The local [to_sec]: [str(s).replace("Z", "").strip()], cut to its
    first 19 characters ([YYYY-MM-DDTHH:MM:SS]). *)
Definition to_sec (v : json) : string :=
  let s := strip (remove_Z (py_str v)) in
  if (19 <=? String.length s)%nat then slice_to 19 s else s.

Definition _at_time_boundary (blocktime since till : json) : bool :=
  if negb (py_truthy blocktime) || negb (py_truthy since) || negb (py_truthy till)
  then false
  else
    let bt_sec := to_sec blocktime in
    String.eqb bt_sec (to_sec since) || String.eqb bt_sec (to_sec till).

(** ** The CSV sinks *)

(** One line of a sink, columns [CSV_COLUMNS]. *)
Record csv_row : Type := CsvRow {
  csv_blocktime : string;
  csv_signature : string;
  csv_txn_index : string;
  csv_trade_index : string
}.

(** What [csv.writer] puts into a cell: [None] becomes the empty text,
    a string is kept, anything else goes through [str]. *)
Definition csv_field (v : json) : string :=
  match v with
  | JNull => ""
  | _ => py_str v
  end.

(** ** [StreamState] *)

Record StreamState : Type := MkStreamState {
  min_time : option json;
  max_time : option json;
  count : Z;
  _file : list csv_row          (* lines of [STREAM_CSV] after the header *)
}.

(** [StreamState()] followed by [open_csv] *)
Definition StreamState_new : StreamState :=
  {| min_time := None; max_time := None; count := 0; _file := [] |}.

Definition write_trade (self : StreamState) (blocktime : json) (signature : string)
    (txn_index trade_index : json) : exc StreamState :=
  let file' := _file self ++
      [CsvRow (csv_field blocktime) signature (csv_field txn_index) (csv_field trade_index)] in
  let count' := count self + 1 in
  let* lo := match min_time self with
       | None => Ok true
       | Some m => py_lt blocktime m
       end in
  let min' := if lo then Some blocktime else min_time self in
  let* hi := match max_time self with
       | None => Ok true
       | Some m => py_gt blocktime m
       end in
  let max' := if hi then Some blocktime else max_time self in
  Ok {| min_time := min'; max_time := max'; count := count'; _file := file' |}.

(** ** [parse_trades_from_result] *)

(** A normalised record: the dict built at source lines 115-120. *)
Record trade_row : Type := TradeRow {
  blocktime : json;
  signature : string;
  txn_index : json;
  trade_index : json
}.

(** What the transport hands over: a [gql] [ExecutionResult], which has
    a [data] attribute, or any other decoded value. *)
Inductive py_result : Type :=
| ExecutionResult (data : json)
| Plain (v : json).

(** Body of the [for t in trades] loop: [None] when the record is
    skipped, [Raise] when a [.get] is applied to a value without it. *)
Definition normalize_trade (t : json) : exc (option trade_row) :=
  let* b := py_get t "Block" in
  let block := py_or b (JDict []) in
  let* x := py_get t "Transaction" in
  let tx := py_or x (JDict []) in
  let* r := py_get t "Trade" in
  let trade := py_or r (JDict []) in
  let* bt := py_get block "Time" in
  let blocktime := py_or bt (JStr "") in
  let* sg := py_get tx "Signature" in
  let signature := py_or sg (JStr "") in
  let* txn_index := py_get tx "Index" in
  let* trade_index := py_get trade "Index" in
  if py_truthy blocktime && negb (py_is_none signature)
  then Ok (Some {| blocktime := blocktime;
                   signature := py_str signature;
                   txn_index := if negb (py_is_none txn_index) then txn_index else JStr "";
                   trade_index := if negb (py_is_none trade_index) then trade_index else JStr "" |})
  else Ok None.

Fixpoint normalize_trades (trades : list json) (out : list trade_row) : exc (list trade_row) :=
  match trades with
  | [] => Ok out
  | t :: rest =>
      let* r := normalize_trade t in
      normalize_trades rest (match r with Some row => out ++ [row] | None => out end)
  end.

(** The [try] block. *)
Definition parse_trades_body (result : py_result) : exc (list trade_row) :=
  let* data := match result with
         | ExecutionResult d => Ok (Some d)
         | Plain (JDict kvs) =>
             let result' := if dict_mem "payload" kvs
                            then default JNull (dict_get "payload" kvs)
                            else JDict kvs in
             let* d := py_get result' "data" in
             Ok (Some (py_or d result'))
         | Plain _ => Ok None
         end in
  match data with
  | Some (JDict kvs) =>
      let solana := default JNull (dict_get "Solana" kvs) in
      if negb (py_truthy solana) then Ok []
      else
        let* trades := py_get solana "DEXTrades" in
        if py_is_none trades then Ok []
        else
          let trades := match trades with JList ts => ts | t => [t] end in
          normalize_trades trades []
  | _ => Ok []
  end.

(** [except Exception: return []] *)
Definition parse_trades_from_result (result : py_result) : list trade_row :=
  match parse_trades_body result with
  | Ok rows => rows
  | Raise _ => []
  end.

(** ** The live leg *)

(** The inner [for row in ...] loop of [subscribe_and_collect]. *)
Fixpoint collect_rows (rows : list trade_row) (state : StreamState) : exc StreamState :=
  match rows with
  | [] => Ok state
  | row :: rest =>
      let* state' := write_trade state (blocktime row) (signature row)
                 (py_or (txn_index row) (JInt 0)) (py_or (trade_index row) (JInt 0)) in
      collect_rows rest state'
  end.

(** [subscribe_and_collect], on the payloads received until the task is
    cancelled (cancellation lands on the [async for], between payloads). *)
Fixpoint subscribe_and_collect (results : list py_result) (state : StreamState)
    : exc StreamState :=
  match results with
  | [] => Ok state
  | result :: rest =>
      let* state' := collect_rows (parse_trades_from_result result) state in
      subscribe_and_collect rest state'
  end.

(** ** The query leg: [run_query_and_compare] *)

(** Identity key as the program builds it: three texts. *)
Abbreviation key := (string * string * string)%type.

(** Key of a line of [STREAM_CSV] (source line 211): [csv.DictReader]
    hands every cell back as a string, on which [str] is the identity. *)
Definition stream_key (line : csv_row) : key :=
  (csv_signature line, csv_txn_index line, csv_trade_index line).

(** Key of a query record (source line 286). *)
Definition query_key (row : trade_row) : key :=
  (signature row, py_str (txn_index row), py_str (trade_index row)).

(** The [stream_keys] set (source lines 207-212). *)
Definition load_stream_keys (file : list csv_row) : gset key :=
  foldl (fun keys line => keys ∪ {[ stream_key line ]}) ∅ file.

(** What the endpoint does with one call of [client.execute]. *)
Inductive response : Type :=
| Response (result : py_result)
| TransientFailure     (* ChunkedEncodingError, ConnectionError, ProtocolError *)
| OtherFailure.        (* any exception outside the [except] clause *)

Inductive event : Type :=
| Request (offset : Z)     (* [client.execute] with this [offset] *)
| Sleep (seconds : Z).     (* [time.sleep] *)

(** The local variables of [run_query_and_compare] and its two sinks. *)
Record query_state : Type := MkQueryState {
  mismatch_count : Z;
  boundary_excluded_count : Z;
  total_query_count : Z;
  offset : Z;
  first_result_time : option json;
  last_result_time : option json;
  query_file : list csv_row;       (* lines of [QUERY_CSV] *)
  mismatch_file : list csv_row;    (* lines of [MISMATCHES_CSV] *)
  log : list event
}.

Definition query_state_init : query_state :=
  {| mismatch_count := 0; boundary_excluded_count := 0; total_query_count := 0;
     offset := 0; first_result_time := None; last_result_time := None;
     query_file := []; mismatch_file := []; log := [] |}.

Definition add_log (evs : list event) (st : query_state) : query_state :=
  {| mismatch_count := mismatch_count st;
     boundary_excluded_count := boundary_excluded_count st;
     total_query_count := total_query_count st;
     offset := offset st;
     first_result_time := first_result_time st;
     last_result_time := last_result_time st;
     query_file := query_file st;
     mismatch_file := mismatch_file st;
     log := log st ++ evs |}.

(** [row_dict] as [csv.DictWriter] writes it. *)
Definition row_dict (row : trade_row) : csv_row :=
  CsvRow (csv_field (blocktime row)) (signature row)
         (csv_field (txn_index row)) (csv_field (trade_index row)).

(** Body of [for row in rows] (source lines 274-292). *)
Definition reconcile_row (stream_keys : gset key) (since till : json)
    (st : query_state) (row : trade_row) : query_state :=
  let total := total_query_count st + 1 in
  let bt := blocktime row in
  let first := match first_result_time st with
               | None => Some bt
               | Some t => Some t
               end in
  let last := Some bt in
  let query_file' := query_file st ++ [row_dict row] in
  if bool_decide (query_key row ∉ stream_keys) then
    if _at_time_boundary bt since till then
      {| mismatch_count := mismatch_count st;
         boundary_excluded_count := boundary_excluded_count st + 1;
         total_query_count := total; offset := offset st;
         first_result_time := first; last_result_time := last;
         query_file := query_file'; mismatch_file := mismatch_file st;
         log := log st |}
    else
      {| mismatch_count := mismatch_count st + 1;
         boundary_excluded_count := boundary_excluded_count st;
         total_query_count := total; offset := offset st;
         first_result_time := first; last_result_time := last;
         query_file := query_file'; mismatch_file := mismatch_file st ++ [row_dict row];
         log := log st |}
  else
    {| mismatch_count := mismatch_count st;
       boundary_excluded_count := boundary_excluded_count st;
       total_query_count := total; offset := offset st;
       first_result_time := first; last_result_time := last;
       query_file := query_file'; mismatch_file := mismatch_file st;
       log := log st |}.

Definition reconcile_rows (stream_keys : gset key) (since till : json)
    (st : query_state) (rows : list trade_row) : query_state :=
  foldl (reconcile_row stream_keys since till) st rows.

(** [range(n)] *)
Definition py_range (n : Z) : list Z := List.map Z.of_nat (seq 0 (Z.to_nat n)).

(** How the [for attempt in range(QUERY_MAX_RETRIES)] loop ends. *)
Inductive fetch_outcome : Type :=
| Fetched (result : py_result)    (* [break] with [result] bound *)
| FetchRaised (e : exn)           (* an exception leaves the loop *)
| NoResponse.                     (* the script has no answer left *)

(** The retry loop (source lines 254-269), for the request at [off].
    It returns the outcome, the unread part of the script and the events
    it produced.  Running out of attempts without [break] or [raise]
    would reach line 270 with no [result] of this pass; the last attempt
    always does one of the two ([execute_with_retry_bound]). *)
Fixpoint execute_with_retry (off : Z) (attempts : list Z) (script : list response)
    : fetch_outcome * list response * list event :=
  match attempts with
  | [] => (FetchRaised UnboundLocalError, script, [])
  | attempt :: attempts' =>
      match script with
      | [] => (NoResponse, [], [Request off])
      | Response result :: script' => (Fetched result, script', [Request off])
      | TransientFailure :: script' =>
          if attempt <? QUERY_MAX_RETRIES - 1 then
            let wait := QUERY_RETRY_DELAY * (attempt + 1) in
            let '(out, rest, evs) := execute_with_retry off attempts' script' in
            (out, rest, Request off :: Sleep wait :: evs)
          else (FetchRaised ConnectionError, script', [Request off])
      | OtherFailure :: script' => (FetchRaised OtherError, script', [Request off])
      end
  end.

(** How the query leg ends. *)
Inductive run_outcome : Type :=
| Finished (st : query_state)            (* the [while] loop was left by [break] *)
| Aborted (e : exn) (st : query_state)   (* an exception left the function *)
| Waiting (st : query_state)             (* blocked on a request the script does not answer *)
| OutOfFuel (st : query_state).

(** One pass of the [while] body after the fetch (source lines
    270-297): the new state, and whether the loop goes on to the next
    offset ([true]) or is left by [break] ([false]). *)
Definition page_step (stream_keys : gset key) (since till : json)
    (st : query_state) (result : py_result) : query_state * bool :=
  let rows := parse_trades_from_result result in
  match rows with
  | [] => (st, false)
  | _ :: _ =>
      let st := reconcile_rows stream_keys since till st rows in
      if Z.of_nat (length rows) <? QUERY_LIMIT then (st, false)
      else
        ({| mismatch_count := mismatch_count st;
            boundary_excluded_count := boundary_excluded_count st;
            total_query_count := total_query_count st;
            offset := offset st + QUERY_LIMIT;
            first_result_time := first_result_time st;
            last_result_time := last_result_time st;
            query_file := query_file st;
            mismatch_file := mismatch_file st;
            log := log st ++ [Sleep 2] |}, true)
  end.

(** The [while True] loop (source lines 251-297).  Every pass reads at
    least one response, so a fuel above the length of the script is
    never used up ([query_loop_fuel]). *)
Fixpoint query_loop (fuel : nat) (stream_keys : gset key) (since till : json)
    (script : list response) (st : query_state) : run_outcome * list response :=
  match fuel with
  | O => (OutOfFuel st, script)
  | S fuel' =>
      let '(out, script', evs) :=
        execute_with_retry (offset st) (py_range QUERY_MAX_RETRIES) script in
      let st := add_log evs st in
      match out with
      | NoResponse => (Waiting st, script')
      | FetchRaised e => (Aborted e st, script')
      | Fetched result =>
          let '(st, continue) := page_step stream_keys since till st result in
          if continue then query_loop fuel' stream_keys since till script' st
          else (Finished st, script')
      end
  end.

(** [x / y] on numbers. *)
Definition py_truediv (x y : Q) : exc Q :=
  if Qeq_bool y 0 then Raise ZeroDivisionError else Ok (x / y)%Q.

(** The missing share of the final report (source lines 309-311):
    [None] when the line is not printed.  The program computes in
    floating point; the embedding keeps the exact quotient. *)
Definition missing_share (st : query_state) : exc (option Q) :=
  if 0 <? total_query_count st then
    let* pct := py_truediv (100 * inject_Z (mismatch_count st))%Q
                           (inject_Z (total_query_count st)) in
    Ok (Some pct)
  else Ok None.

(** Result of [run_query_and_compare]: how the loop ended, what was
    left unread of the script, and the missing share when the final
    report printed one. *)
Inductive run_result : Type :=
| Skipped                                   (* no time range: early [return] *)
| Ran (out : run_outcome) (unread : list response) (share : option Q).

Definition run_query_and_compare (state : StreamState) (script : list response) : run_result :=
  match min_time state, max_time state with
  | Some since, Some till =>
      if negb (py_truthy since) || negb (py_truthy till) then Skipped
      else
        let stream_keys := load_stream_keys (_file state) in
        match query_loop (S (length script)) stream_keys since till script query_state_init with
        | (Finished st, unread) =>
            match missing_share st with
            | Ok share => Ran (Finished st) unread share
            | Raise e => Ran (Aborted e st) unread None
            end
        | (out, unread) => Ran out unread None
        end
  | _, _ => Skipped
  end.

(** [main], once the token is read: the live leg on the payloads
    received before the operator stops it, then the query leg. *)
Definition main (live : list py_result) (script : list response) : exc run_result :=
  let* state := subscribe_and_collect live StreamState_new in
  if count state =? 0 then Ok Skipped
  else Ok (run_query_and_compare state script).

(** ** Sample payloads *)

(** A [DEXTrades] element as the endpoint sends it. *)
Definition dex_trade (time sig idx tidx : json) : json :=
  JDict [("Block", JDict [("Time", time); ("Slot", JInt 1)]);
         ("Transaction", JDict [("Signature", sig); ("Index", idx);
                                ("Result", JDict [("Success", JBool true)])]);
         ("Trade", JDict [("Index", tidx)])].

Definition dex_payload (trades : list json) : json :=
  JDict [("Solana", JDict [("DEXTrades", JList trades)])].

(** [t.get(outer) or {}] followed by [.get(inner)]: how the normaliser
    reads a nested field; [Ok JNull] when it is missing or null. *)
Definition nested_get (t : json) (outer inner : string) : exc json :=
  let* o := py_get t outer in
  py_get (py_or o (JDict [])) inner.

(** * Vocabulary of the properties *)

(** Code-point order on strings, as [<=] of Python compares them. *)
Definition lex_le (a b : string) : Prop := String.leb a b = true.

Definition is_lex_min (m : string) (seen : list string) : Prop :=
  In m seen /\ Forall (lex_le m) seen.

Definition is_lex_max (m : string) (seen : list string) : Prop :=
  In m seen /\ Forall (fun b => lex_le b m) seen.

(** The invariant of the live leg after the block times [seen]. *)
Definition range_ok (seen : list string) (st : StreamState) : Prop :=
  count st = Z.of_nat (length seen) /\
  (seen = [] -> min_time st = None /\ max_time st = None) /\
  (seen <> [] ->
   exists lo hi, min_time st = Some (JStr lo) /\ max_time st = Some (JStr hi) /\
                 is_lex_min lo seen /\ is_lex_max hi seen).

(** Number of records the reconciler finds in the live index. *)
Definition matched_count (stream_keys : gset key) (rows : list trade_row) : Z :=
  Z.of_nat (length (List.filter (fun row => bool_decide (query_key row ∈ stream_keys)) rows)).

(** The state in which the loop ended. *)
Definition final_state (out : run_outcome) : query_state :=
  match out with
  | Finished st | Aborted _ st | Waiting st | OutOfFuel st => st
  end.

(** The records [rows] account for the counters and the query sink of [st]. *)
Definition conserved (stream_keys : gset key) (rows : list trade_row) (st : query_state) : Prop :=
  query_file st = List.map row_dict rows /\
  total_query_count st =
    matched_count stream_keys rows + boundary_excluded_count st + mismatch_count st.

(** The offsets the run asked for, in order. *)
Fixpoint requested_offsets (evs : list event) : list Z :=
  match evs with
  | [] => []
  | Request off :: rest => off :: requested_offsets rest
  | Sleep _ :: rest => requested_offsets rest
  end.


(** [bool(v)] of an attribute that is [None] or holds a value. *)
Definition opt_truthy (v : option json) : bool :=
  match v with
  | None => false
  | Some v => py_truthy v
  end.

(** A page of exactly [QUERY_LIMIT] records. *)
Definition full_page : py_result :=
  Plain (dex_payload
           (repeat (dex_trade (JStr "2024-01-01T00:00:07Z") (JStr "S1") (JInt 0) (JInt 0))
                   (Z.to_nat QUERY_LIMIT))).

(** The events of [k] failed attempts at [off], the first one being
    attempt number [n]: a request, then a pause of [QUERY_RETRY_DELAY]
    times the number of the attempt. *)
Fixpoint retry_events (off : Z) (n : Z) (k : nat) : list event :=
  match k with
  | O => []
  | S k' => Request off :: Sleep (QUERY_RETRY_DELAY * n) :: retry_events off (n + 1) k'
  end.

(** The line the live leg writes for a record (source lines 152-157
    and 62-67). *)
Definition stream_line (row : trade_row) : csv_row :=
  CsvRow (csv_field (blocktime row)) (signature row)
         (csv_field (py_or (txn_index row) (JInt 0)))
         (csv_field (py_or (trade_index row) (JInt 0))).

(** Three trades of one second each; the middle one has the given
    transaction index. *)
Definition three_trades (idx : json) : json :=
  dex_payload [dex_trade (JStr "2024-01-01T00:00:05Z") (JStr "S1") (JInt 0) (JInt 0);
               dex_trade (JStr "2024-01-01T00:00:07Z") (JStr "S2") idx (JInt 0);
               dex_trade (JStr "2024-01-01T00:00:10Z") (JStr "S3") (JInt 2) (JInt 1)].

(** ** Vocabulary of the further properties *)

Definition is_dict (v : json) : bool :=
  match v with JDict _ => true | _ => false end.

(** [t.get(name) or {}] has a [get] method: the section is missing,
    falsy, or an object. *)
Definition section_ok (kvs : list (string * json)) (name : string) : bool :=
  let v := default JNull (dict_get name kvs) in
  negb (py_truthy v) || is_dict v.

(** A [DEXTrades] element on which the loop body does not raise. *)
Definition well_shaped (t : json) : bool :=
  match t with
  | JDict kvs =>
      section_ok kvs "Block" && section_ok kvs "Transaction" && section_ok kvs "Trade"
  | _ => false
  end.

(** The records the loop body appends for [t]: one or none. *)
Definition accepted (t : json) : list trade_row :=
  match normalize_trade t with
  | Ok (Some row) => [row]
  | _ => []
  end.

(** A string that neither starts nor ends with a white-space character
    (and is not empty). *)
Definition starts_clean (s : string) : bool :=
  match s with
  | EmptyString => false
  | String c _ => negb (is_space c)
  end.

Fixpoint ends_clean (s : string) : bool :=
  match s with
  | EmptyString => false
  | String c EmptyString => negb (is_space c)
  | String _ s' => ends_clean s'
  end.

(** The record is counted as a mismatch (source lines 287-292). *)
Definition is_missed (stream_keys : gset key) (since till : json) (row : trade_row) : bool :=
  bool_decide (query_key row ∉ stream_keys) &&
  negb (_at_time_boundary (blocktime row) since till).

(** The record is counted as boundary-excluded (source lines 287-289). *)
Definition is_boundary_excluded (stream_keys : gset key) (since till : json)
    (row : trade_row) : bool :=
  bool_decide (query_key row ∉ stream_keys) &&
  _at_time_boundary (blocktime row) since till.

(** Two states of the query leg with the same counters and sinks; the
    cursor and the event log may differ. *)
Definition same_data (st st' : query_state) : Prop :=
  mismatch_count st = mismatch_count st' /\
  boundary_excluded_count st = boundary_excluded_count st' /\
  total_query_count st = total_query_count st' /\
  first_result_time st = first_result_time st' /\
  last_result_time st = last_result_time st' /\
  query_file st = query_file st' /\
  mismatch_file st = mismatch_file st'.

(** A page together with the number of transient failures that
    precede its answer; the responses such pages take from the script. *)
Definition script_of (pages : list (nat * py_result)) : list response :=
  flat_map (fun x => repeat TransientFailure (fst x) ++ [Response (snd x)]) pages.

(** The events of fetching the pages [pages] from offset [off] on, each
    followed by the pause between pages. *)
Fixpoint pages_log (off : Z) (pages : list (nat * py_result)) : list event :=
  match pages with
  | [] => []
  | x :: pages' =>
      retry_events off 1 (fst x) ++ [Request off; Sleep 2]
      ++ pages_log (off + QUERY_LIMIT) pages'
  end.

(** Seconds spent in [time.sleep]. *)
Fixpoint total_sleep (evs : list event) : Z :=
  match evs with
  | [] => 0
  | Sleep secs :: rest => secs + total_sleep rest
  | Request _ :: rest => total_sleep rest
  end.

(** The counters of the query leg agree with its two sinks. *)
Definition sinks_agree (st : query_state) : Prop :=
  total_query_count st = Z.of_nat (length (query_file st)) /\
  mismatch_count st = Z.of_nat (length (mismatch_file st)) /\
  0 <= boundary_excluded_count st /\
  mismatch_count st + boundary_excluded_count st <= total_query_count st /\
  (forall line, In line (mismatch_file st) -> In line (query_file st)).

(** The results of the calls of [client.execute] that a part of the
    script answers. *)
Fixpoint answered (script : list response) : list py_result :=
  match script with
  | [] => []
  | Response result :: rest => result :: answered rest
  | _ :: rest => answered rest
  end.

(** The record is found in the live index (source line 287). *)
Definition is_matched (stream_keys : gset key) (row : trade_row) : bool :=
  bool_decide (query_key row ∈ stream_keys).


(** * Properties *)

(** ** The exception monad *)

Lemma exc_bind_Ok {A B : Type} (m : exc A) (f : A -> exc B) (b : B) :
  exc_bind m f = Ok b -> exists a, m = Ok a /\ f a = Ok b.
Proof. destruct m as [a|e]; simpl; [eauto | discriminate]. Qed.

Ltac exc_inv H :=
  repeat match type of H with
         | exc_bind ?m ?f = Ok ?b =>
             let a := fresh "v" in
             let Hm := fresh "Hget" in
             apply exc_bind_Ok in H; destruct H as (a & Hm & H)
         end.

(** ** The normaliser *)

(** What [normalize_trade] emits, spelled out on the fields it read. *)
Lemma normalize_trade_inv (t : json) (row : trade_row) :
  normalize_trade t = Ok (Some row) ->
  exists bt sg ti tri,
    nested_get t "Block" "Time" = Ok bt /\
    nested_get t "Transaction" "Signature" = Ok sg /\
    nested_get t "Transaction" "Index" = Ok ti /\
    nested_get t "Trade" "Index" = Ok tri /\
    py_truthy (py_or bt (JStr "")) = true /\
    row = {| blocktime := py_or bt (JStr "");
             signature := py_str (py_or sg (JStr ""));
             txn_index := if negb (py_is_none ti) then ti else JStr "";
             trade_index := if negb (py_is_none tri) then tri else JStr "" |}.
Proof.
  unfold normalize_trade, nested_get. intros H. exc_inv H.
  destruct (py_truthy (py_or v2 (JStr ""))) eqn:Hbt; simpl in H; [| discriminate].
  destruct (py_is_none (py_or v3 (JStr ""))); simpl in H; [discriminate|].
  exists v2, v3, v4, v5. rewrite Hget, Hget0, Hget1. simpl.
  repeat split; try assumption. congruence.
Qed.

Lemma normalize_trade_blocktime (t : json) (row : trade_row) :
  normalize_trade t = Ok (Some row) -> py_truthy (blocktime row) = true.
Proof.
  intros H. apply normalize_trade_inv in H.
  destruct H as (bt & sg & ti & tri & _ & _ & _ & _ & Hbt & ->). exact Hbt.
Qed.

(** Every record of the output comes from the input list or was in the
    accumulator. *)
Lemma normalize_trades_In (trades : list json) :
  forall out rows row,
    normalize_trades trades out = Ok rows -> In row rows ->
    In row out \/ exists t, In t trades /\ normalize_trade t = Ok (Some row).
Proof.
  induction trades as [|t rest IH]; simpl; intros out rows row H Hin.
  - left. congruence.
  - exc_inv H. destruct (IH _ _ _ H Hin) as [Hout | (t' & Ht' & Hn)].
    + destruct v as [r|]; [| now left].
      apply in_app_or in Hout. destruct Hout as [Hout | [<- | []]]; [now left |].
      right. exists t. split; [now left | assumption].
    + right. exists t'. split; [now right | assumption].
Qed.

(** Every record [parse_trades_from_result] returns was emitted by the
    loop body on some element of the payload. *)
Lemma parse_trades_In (result : py_result) (row : trade_row) :
  In row (parse_trades_from_result result) ->
  exists t, normalize_trade t = Ok (Some row).
Proof.
  unfold parse_trades_from_result.
  destruct (parse_trades_body result) as [rows|e] eqn:Hb; [| intros []].
  intros Hin. unfold parse_trades_body in Hb. exc_inv Hb.
  destruct v as [[| | | | |kvs]|]; try (injection Hb as <-; destruct Hin).
  destruct (negb (py_truthy _)); [injection Hb as <-; destruct Hin |].
  exc_inv Hb. destruct (py_is_none v); [injection Hb as <-; destruct Hin |].
  destruct (normalize_trades_In _ _ _ _ Hb Hin) as [[] | (t & _ & Ht)].
  exists t. exact Ht.
Qed.

Lemma parse_trades_blocktime (result : py_result) (row : trade_row) :
  In row (parse_trades_from_result result) -> py_truthy (blocktime row) = true.
Proof.
  intros Hin. apply parse_trades_In in Hin. destruct Hin as (t & Ht).
  eapply normalize_trade_blocktime, Ht.
Qed.

(** C2, as stated, fails.  A trade whose two [Index] fields are null is
    accepted, and the record carries the empty string in both places,
    not the integer 0. *)
Lemma absent_index_is_not_zero :
  normalize_trade (dex_trade (JStr "2024-01-01T00:00:05Z") (JStr "S1") JNull JNull)
    = Ok (Some {| blocktime := JStr "2024-01-01T00:00:05Z"; signature := "S1";
                  txn_index := JStr ""; trade_index := JStr "" |})
  /\ JStr "" <> JInt 0.
Proof. split; [reflexivity | discriminate]. Qed.

(** C2, amended.  For every raw record the normaliser accepts, a
    [txn_index] (resp. [trade_index]) that is missing or null upstream
    is carried as the empty string in the normalised record. *)
Theorem normalize_trade_absent_index (t : json) (row : trade_row) :
  normalize_trade t = Ok (Some row) ->
  (nested_get t "Transaction" "Index" = Ok JNull -> txn_index row = JStr "") /\
  (nested_get t "Trade" "Index" = Ok JNull -> trade_index row = JStr "").
Proof.
  intros H. apply normalize_trade_inv in H.
  destruct H as (bt & sg & ti & tri & _ & _ & Hti & Htri & _ & ->). simpl.
  split; intros Hnull.
  - rewrite Hti in Hnull. injection Hnull as ->. reflexivity.
  - rewrite Htri in Hnull. injection Hnull as ->. reflexivity.
Qed.

Lemma normalize_trade_absent_index_witness :
  txn_index {| blocktime := JStr "2024-01-01T00:00:05Z"; signature := "S1";
               txn_index := JStr ""; trade_index := JInt 3 |} = JStr "".
Proof.
  apply (normalize_trade_absent_index
           (JDict [("Block", JDict [("Time", JStr "2024-01-01T00:00:05Z")]);
                   ("Transaction", JDict [("Signature", JStr "S1")]);
                   ("Trade", JDict [("Index", JInt 3)])])).
  - reflexivity.
  - reflexivity.
Defined.

(** The live collector is where the 0 comes from: an empty index is
    replaced before the line is written. *)
Lemma write_trade_absent_index (state state' : StreamState) (row : trade_row) :
  txn_index row = JStr "" ->
  collect_rows [row] state = Ok state' ->
  exists line, _file state' = _file state ++ [line] /\ csv_txn_index line = "0".
Proof.
  intros Hidx H. simpl in H. exc_inv H. injection H as <-.
  unfold write_trade in Hget. exc_inv Hget. injection Hget as <-. simpl.
  eexists. split; [reflexivity |]. simpl. rewrite Hidx. reflexivity.
Qed.

(** A record whose [blocktime] is empty (missing, null, or the empty
    string) is skipped without raising. *)
Lemma empty_blocktime_skipped (t : json) (bt : json) (row : option trade_row) :
  nested_get t "Block" "Time" = Ok bt -> py_truthy bt = false ->
  normalize_trade t = Ok row -> row = None.
Proof.
  unfold nested_get, normalize_trade. intros Hbt Hf H. exc_inv Hbt. exc_inv H.
  rewrite Hget in Hget0. injection Hget0 as <-.
  rewrite Hbt in Hget3. injection Hget3 as <-.
  unfold py_or at 1 in H. rewrite Hf in H. simpl in H. congruence.
Qed.

(** C3: the code at the failing input.  A trade with a block time but no
    [Signature] (missing, or null) is emitted, with the empty string as
    its signature; the test [signature is not None] cannot fail after
    [or ""]. *)
Theorem absent_signature_is_emitted :
  parse_trades_from_result
    (Plain (dex_payload
       [JDict [("Block", JDict [("Time", JStr "2024-01-01T00:00:05Z")]);
               ("Transaction", JDict [("Index", JInt 0)]);
               ("Trade", JDict [("Index", JInt 0)])];
        dex_trade (JStr "2024-01-01T00:00:06Z") JNull (JInt 1) (JInt 0)]))
  = [ {| blocktime := JStr "2024-01-01T00:00:05Z"; signature := "";
         txn_index := JInt 0; trade_index := JInt 0 |};
      {| blocktime := JStr "2024-01-01T00:00:06Z"; signature := "";
         txn_index := JInt 1; trade_index := JInt 0 |} ].
Proof. reflexivity. Qed.

(** The signature test of the normaliser never rejects a record. *)
Lemma signature_guard_vacuous (sg : json) :
  py_is_none (py_or sg (JStr "")) = false.
Proof.
  unfold py_or. destruct (py_truthy sg) eqn:Hsg; [| reflexivity].
  destruct sg; simpl in *; congruence.
Qed.

(** ** The boundary test *)

Lemma at_time_boundary_true (bt since till : json) :
  py_truthy bt = true -> py_truthy since = true -> py_truthy till = true ->
  to_sec bt = to_sec since \/ to_sec bt = to_sec till ->
  _at_time_boundary bt since till = true.
Proof.
  intros Hb Hs Ht Heq. unfold _at_time_boundary. rewrite Hb, Hs, Ht. simpl.
  apply orb_true_iff. destruct Heq as [-> | ->]; [left | right]; apply String.eqb_refl.
Qed.

(** C4.  A query record whose key is not in the live index and whose
    block time, cut to the second, equals that of [since] or of [till]
    is counted as boundary-excluded: the mismatch counter and the
    mismatch sink stay as they were.  [since] and [till] are non-empty
    whenever the loop runs, and so is the block time of a record the
    normaliser returned. *)
Theorem boundary_never_missed (stream_keys : gset key) (since till : json)
    (st : query_state) (result : py_result) (row : trade_row) :
  In row (parse_trades_from_result result) ->
  py_truthy since = true -> py_truthy till = true ->
  query_key row ∉ stream_keys ->
  to_sec (blocktime row) = to_sec since \/ to_sec (blocktime row) = to_sec till ->
  let st' := reconcile_row stream_keys since till st row in
  boundary_excluded_count st' = boundary_excluded_count st + 1 /\
  mismatch_count st' = mismatch_count st /\
  mismatch_file st' = mismatch_file st /\
  total_query_count st' = total_query_count st + 1.
Proof.
  intros Hin Hs Ht Hkey Heq. simpl. unfold reconcile_row.
  rewrite bool_decide_eq_true_2 by exact Hkey.
  rewrite at_time_boundary_true by eauto using parse_trades_blocktime.
  simpl. repeat split.
Qed.

Lemma boundary_never_missed_witness :
  let row := {| blocktime := JStr "2024-01-01T00:00:05.250Z"; signature := "S3";
                txn_index := JInt 0; trade_index := JInt 0 |} in
  let st' := reconcile_row ∅ (JStr "2024-01-01T00:00:05Z") (JStr "2024-01-01T00:00:10Z")
               query_state_init row in
  boundary_excluded_count st' = 1 /\ mismatch_count st' = 0 /\
  mismatch_file st' = [] /\ total_query_count st' = 1.
Proof.
  intros row.
  apply (boundary_never_missed ∅ (JStr "2024-01-01T00:00:05Z") (JStr "2024-01-01T00:00:10Z")
           query_state_init
           (Plain (dex_payload [dex_trade (JStr "2024-01-01T00:00:05.250Z") (JStr "S3")
                                          (JInt 0) (JInt 0)]))
           row).
  - left. reflexivity.
  - reflexivity.
  - reflexivity.
  - apply not_elem_of_empty.
  - left. reflexivity.
Defined.

(** ** The observed time range *)

Lemma ascii_compare_refl (c : ascii) : Ascii.compare c c = Eq.
Proof. unfold Ascii.compare. apply N.compare_refl. Qed.

Lemma ascii_compare_trans (x y z : ascii) :
  Ascii.compare x y = Lt -> Ascii.compare y z = Lt -> Ascii.compare x z = Lt.
Proof.
  unfold Ascii.compare. rewrite !N.compare_lt_iff. apply N.lt_trans.
Qed.

Lemma lex_le_refl (a : string) : lex_le a a.
Proof.
  unfold lex_le, String.leb. induction a as [|c a IH]; simpl; [reflexivity |].
  rewrite ascii_compare_refl. exact IH.
Qed.

Lemma lex_le_trans (a b c : string) : lex_le a b -> lex_le b c -> lex_le a c.
Proof.
  unfold lex_le, String.leb. revert b c.
  induction a as [|x a IH]; intros [|y b] [|z c]; simpl; try congruence.
  destruct (Ascii.compare x y) eqn:Hxy; try congruence;
    destruct (Ascii.compare y z) eqn:Hyz; try congruence; intros Hab Hbc.
  - apply Ascii.compare_eq_iff in Hxy, Hyz. subst. rewrite ascii_compare_refl.
    eapply IH; eassumption.
  - apply Ascii.compare_eq_iff in Hxy. subst. rewrite Hyz. reflexivity.
  - apply Ascii.compare_eq_iff in Hyz. subst. rewrite Hxy. reflexivity.
  - rewrite (ascii_compare_trans _ _ _ Hxy Hyz). reflexivity.
Qed.

Lemma ltb_lex_le (a b : string) : String.ltb a b = true -> lex_le a b.
Proof. unfold String.ltb, lex_le, String.leb. destruct (String.compare a b); congruence. Qed.

Lemma not_ltb_lex_le (a b : string) : String.ltb a b = false -> lex_le b a.
Proof.
  unfold String.ltb, lex_le, String.leb. rewrite (String.compare_antisym b a).
  destruct (String.compare a b); simpl; congruence.
Qed.

Lemma is_lex_min_snoc (lo b : string) (seen : list string) :
  is_lex_min lo seen ->
  is_lex_min (if String.ltb b lo then b else lo) (seen ++ [b]).
Proof.
  intros [Hin Hall]. destruct (String.ltb b lo) eqn:Hlt; split.
  - apply in_or_app. right. now left.
  - apply Forall_app. split.
    + eapply Forall_impl; [exact Hall |]. intros x Hx.
      eapply lex_le_trans; [apply ltb_lex_le, Hlt | exact Hx].
    + constructor; [apply lex_le_refl | constructor].
  - apply in_or_app. now left.
  - apply Forall_app. split; [exact Hall |].
    constructor; [apply not_ltb_lex_le, Hlt | constructor].
Qed.

Lemma is_lex_max_snoc (hi b : string) (seen : list string) :
  is_lex_max hi seen ->
  is_lex_max (if String.ltb hi b then b else hi) (seen ++ [b]).
Proof.
  intros [Hin Hall]. destruct (String.ltb hi b) eqn:Hlt; split.
  - apply in_or_app. right. now left.
  - apply Forall_app. split.
    + eapply Forall_impl; [exact Hall |]. intros x Hx. simpl in Hx.
      eapply lex_le_trans; [exact Hx | apply ltb_lex_le, Hlt].
    + constructor; [apply lex_le_refl | constructor].
  - apply in_or_app. now left.
  - apply Forall_app. split; [exact Hall |].
    constructor; [apply not_ltb_lex_le, Hlt | constructor].
Qed.

(** One accepted record with a string block time keeps the invariant,
    and [write_trade] does not raise. *)
Lemma write_trade_range_ok (seen : list string) (st : StreamState) (b sig : string)
    (ti tri : json) :
  range_ok seen st ->
  exists st', write_trade st (JStr b) sig ti tri = Ok st' /\ range_ok (seen ++ [b]) st'.
Proof.
  intros (Hcount & Hnil & Hcons). unfold write_trade.
  destruct seen as [|s seen].
  - destruct (Hnil eq_refl) as [-> ->]. simpl. eexists. split; [reflexivity |].
    split; [simpl in *; lia |]. split; [discriminate |]. intros _. simpl.
    exists b, b. repeat split; try (now left); repeat constructor; apply lex_le_refl.
  - destruct Hcons as (lo & hi & -> & -> & Hlo & Hhi); [discriminate |].
    simpl exc_bind. eexists. split; [reflexivity |].
    split; [simpl count; rewrite Hcount, length_app; simpl; lia |].
    split; [intros Habs; destruct (app_eq_nil _ _ Habs); discriminate |].
    intros _. simpl min_time. simpl max_time.
    exists (if String.ltb b lo then b else lo), (if String.ltb hi b then b else hi).
    split; [destruct (String.ltb b lo); reflexivity |].
    split; [destruct (String.ltb hi b); reflexivity |].
    split; [apply is_lex_min_snoc, Hlo | apply is_lex_max_snoc, Hhi].
Qed.

Lemma collect_rows_range_ok (rows : list trade_row) :
  forall (times seen : list string) (st : StreamState),
    List.map blocktime rows = List.map JStr times ->
    range_ok seen st ->
    exists st', collect_rows rows st = Ok st' /\ range_ok (seen ++ times) st'.
Proof.
  induction rows as [|row rows IH]; intros [|b times] seen st Hmap Hok;
    simpl in Hmap; try discriminate.
  - exists st. rewrite app_nil_r. split; [reflexivity | exact Hok].
  - injection Hmap as Hb Hmap. simpl. rewrite Hb.
    destruct (write_trade_range_ok seen st b (signature row)
                (py_or (txn_index row) (JInt 0)) (py_or (trade_index row) (JInt 0)) Hok)
      as (st1 & -> & Hok1).
    simpl. destruct (IH times (seen ++ [b]) st1 Hmap Hok1) as (st' & Hst' & Hok').
    exists st'. split; [exact Hst' |]. rewrite <- app_assoc in Hok'. exact Hok'.
Qed.

Lemma collect_rows_app (rows rows' : list trade_row) (st : StreamState) :
  collect_rows (rows ++ rows') st =
  let* st' := collect_rows rows st in collect_rows rows' st'.
Proof.
  revert st. induction rows as [|row rows IH]; intros st; simpl; [reflexivity |].
  destruct (write_trade st _ _ _ _) as [st1|e]; simpl; [apply IH | reflexivity].
Qed.

(** The live leg is the inner loop run over all the records of all the
    payloads, in order of arrival. *)
Lemma subscribe_and_collect_rows (results : list py_result) (st : StreamState) :
  subscribe_and_collect results st =
  collect_rows (List.concat (List.map parse_trades_from_result results)) st.
Proof.
  revert st. induction results as [|result results IH]; intros st; simpl; [reflexivity |].
  rewrite collect_rows_app.
  destruct (collect_rows (parse_trades_from_result result) st) as [st1|e]; simpl;
    [apply IH | reflexivity].
Qed.

(** C9.  After any number of accepted records (with string block
    times) the live leg has not raised, [count] is the number of records
    written, and [min_time] and [max_time] are the least and the
    greatest block time written so far in code-point order; before the
    first record both are [None]. *)
Theorem live_range_invariant (rows : list trade_row) (times : list string) :
  List.map blocktime rows = List.map JStr times ->
  exists st,
    collect_rows rows StreamState_new = Ok st /\
    count st = Z.of_nat (length rows) /\
    match times with
    | [] => min_time st = None /\ max_time st = None
    | _ :: _ =>
        exists lo hi, min_time st = Some (JStr lo) /\ max_time st = Some (JStr hi) /\
                      is_lex_min lo times /\ is_lex_max hi times
    end.
Proof.
  intros Hmap.
  assert (Hinit : range_ok [] StreamState_new).
  { split; [reflexivity |]. split; [intros _; split; reflexivity | intros H; now destruct H]. }
  destruct (collect_rows_range_ok rows times [] StreamState_new Hmap Hinit)
    as (st & Hst & Hcount & Hnil & Hcons).
  simpl in *. exists st. split; [exact Hst |]. split.
  - rewrite Hcount. f_equal.
    rewrite <- (length_map blocktime rows), Hmap, length_map. reflexivity.
  - destruct times as [|b times]; [apply Hnil; reflexivity | apply Hcons; discriminate].
Qed.

Lemma live_range_invariant_witness :
  let row (time sig : string) :=
    {| blocktime := JStr time; signature := sig; txn_index := JInt 0; trade_index := JInt 0 |} in
  let times := ["2024-01-01T00:00:07Z"; "2024-01-01T00:00:05Z"; "2024-01-01T00:00:10Z"] in
  exists st,
    collect_rows [row "2024-01-01T00:00:07Z" "S1"; row "2024-01-01T00:00:05Z" "S2";
                  row "2024-01-01T00:00:10Z" "S3"] StreamState_new = Ok st /\
    count st = 3 /\
    exists lo hi, min_time st = Some (JStr lo) /\ max_time st = Some (JStr hi) /\
                  is_lex_min lo times /\ is_lex_max hi times.
Proof.
  intros row times.
  apply (live_range_invariant
           [row "2024-01-01T00:00:07Z" "S1"; row "2024-01-01T00:00:05Z" "S2";
            row "2024-01-01T00:00:10Z" "S3"] times).
  reflexivity.
Defined.

(** ** The loop, one pass at a time *)

Lemma query_loop_S (fuel : nat) (stream_keys : gset key) (since till : json)
    (script : list response) (st : query_state) :
  query_loop (S fuel) stream_keys since till script st =
  let '(out, script', evs) :=
    execute_with_retry (offset st) (py_range QUERY_MAX_RETRIES) script in
  match out with
  | NoResponse => (Waiting (add_log evs st), script')
  | FetchRaised e => (Aborted e (add_log evs st), script')
  | Fetched result =>
      let '(st', continue) := page_step stream_keys since till (add_log evs st) result in
      if continue then query_loop fuel stream_keys since till script' st'
      else (Finished st', script')
  end.
Proof. reflexivity. Qed.

(** A single successful answer ends the retry loop at once. *)
Lemma execute_with_retry_success (off : Z) (result : py_result) (script : list response) :
  execute_with_retry off (py_range QUERY_MAX_RETRIES) (Response result :: script)
  = (Fetched result, script, [Request off]).
Proof. reflexivity. Qed.

(** The attempts of [range(QUERY_MAX_RETRIES)] are never used up
    without an answer or an exception of the transport. *)
Lemma execute_with_retry_bound (off : Z) (script : list response) :
  fst (fst (execute_with_retry off (py_range QUERY_MAX_RETRIES) script))
  <> FetchRaised UnboundLocalError.
Proof.
  destruct script as [|[r| |] [|[r1| |] [|[r2| |] [|[r3| |] script]]]]; discriminate.
Qed.

(** ** Conservation of the counters *)

Section Conservation.

Context (stream_keys : gset key) (since till : json).

Lemma matched_count_snoc (rows : list trade_row) (row : trade_row) :
  matched_count stream_keys (rows ++ [row]) =
  matched_count stream_keys rows + (if bool_decide (query_key row ∈ stream_keys) then 1 else 0).
Proof.
  unfold matched_count. rewrite List.filter_app, length_app. simpl.
  destruct (bool_decide _); simpl; lia.
Qed.

Lemma reconcile_row_conserved (rows : list trade_row) (st : query_state) (row : trade_row) :
  conserved stream_keys rows st ->
  conserved stream_keys (rows ++ [row]) (reconcile_row stream_keys since till st row).
Proof.
  intros [Hfile Htotal]. unfold conserved. rewrite matched_count_snoc, List.map_app.
  unfold reconcile_row.
  destruct (decide (query_key row ∈ stream_keys)) as [Hin | Hout].
  - rewrite (bool_decide_eq_false_2 (query_key row ∉ stream_keys)) by auto.
    rewrite (bool_decide_eq_true_2 _ Hin). simpl. rewrite Hfile. split; [reflexivity | lia].
  - rewrite (bool_decide_eq_true_2 (query_key row ∉ stream_keys)) by exact Hout.
    rewrite (bool_decide_eq_false_2 _ Hout).
    destruct (_at_time_boundary _ _ _); simpl; rewrite Hfile; split; (reflexivity || lia).
Qed.

Lemma reconcile_rows_conserved (page : list trade_row) :
  forall (rows : list trade_row) (st : query_state),
    conserved stream_keys rows st ->
    conserved stream_keys (rows ++ page) (reconcile_rows stream_keys since till st page).
Proof.
  unfold reconcile_rows. induction page as [|row page IH]; intros rows st Hc; simpl.
  - rewrite app_nil_r. exact Hc.
  - replace (rows ++ row :: page) with ((rows ++ [row]) ++ page)
      by (rewrite <- app_assoc; reflexivity).
    apply IH, reconcile_row_conserved, Hc.
Qed.

Lemma page_step_conserved (rows : list trade_row) (st : query_state) (result : py_result) :
  conserved stream_keys rows st ->
  conserved stream_keys (rows ++ parse_trades_from_result result)
            (fst (page_step stream_keys since till st result)).
Proof.
  intros Hc. unfold page_step.
  destruct (parse_trades_from_result result) as [|row page] eqn:Hp; simpl.
  - rewrite app_nil_r. exact Hc.
  - pose proof (reconcile_rows_conserved (row :: page) rows st Hc) as H.
    destruct (_ <? QUERY_LIMIT); exact H.
Qed.

Lemma query_loop_conserved (fuel : nat) :
  forall (script : list response) (rows : list trade_row) (st : query_state),
    conserved stream_keys rows st ->
    exists rows',
      conserved stream_keys rows'
        (final_state (fst (query_loop fuel stream_keys since till script st))).
Proof.
  induction fuel as [|fuel IH]; intros script rows st Hc.
  - exists rows. exact Hc.
  - rewrite query_loop_S.
    destruct (execute_with_retry (offset st) (py_range QUERY_MAX_RETRIES) script)
      as [[out script'] evs].
    destruct out as [result | e |]; simpl; try (exists rows; exact Hc).
    pose proof (page_step_conserved rows (add_log evs st) result Hc) as Hp.
    destruct (page_step stream_keys since till (add_log evs st) result) as [st' continue].
    simpl in Hp.
    destruct continue; [eapply IH, Hp |]. eexists. exact Hp.
Qed.

End Conservation.

(** ** The summary *)

Lemma missing_share_Ok (st : query_state) :
  exists share, missing_share st = Ok share.
Proof.
  unfold missing_share, py_truediv.
  destruct (0 <? total_query_count st) eqn:Hpos; [| eauto].
  apply Z.ltb_lt in Hpos.
  destruct (Qeq_bool (inject_Z (total_query_count st)) 0) eqn:Hz; simpl; [| eauto].
  apply Qeq_bool_iff in Hz. unfold Qeq, inject_Z in Hz. simpl in Hz. lia.
Qed.

(** ** Pagination *)



Section Pagination.

Context (stream_keys : gset key) (since till : json).

Lemma reconcile_rows_offset_log (rows : list trade_row) :
  forall st : query_state,
    offset (reconcile_rows stream_keys since till st rows) = offset st /\
    log (reconcile_rows stream_keys since till st rows) = log st.
Proof.
  unfold reconcile_rows. induction rows as [|row rows IH]; intros st; simpl; [auto |].
  destruct (IH (reconcile_row stream_keys since till st row)) as [-> ->].
  unfold reconcile_row.
  destruct (bool_decide _); [destruct (_at_time_boundary _ _ _) |]; auto.
Qed.

Lemma page_step_full (st : query_state) (result : py_result) :
  QUERY_LIMIT <= Z.of_nat (length (parse_trades_from_result result)) ->
  exists st', page_step stream_keys since till st result = (st', true) /\
              offset st' = offset st + QUERY_LIMIT /\ log st' = log st ++ [Sleep 2].
Proof.
  intros Hfull. unfold page_step.
  destruct (parse_trades_from_result result) as [|row rows] eqn:Hp;
    [simpl in Hfull; unfold QUERY_LIMIT in Hfull; lia |].
  apply Z.ltb_ge in Hfull. rewrite Hfull.
  destruct (reconcile_rows_offset_log (row :: rows) st) as [Ho Hl].
  eexists. split; [reflexivity |]. cbn [offset log]. rewrite Ho, Hl. auto.
Qed.

Lemma page_step_short (st : query_state) (result : py_result) :
  Z.of_nat (length (parse_trades_from_result result)) < QUERY_LIMIT ->
  exists st', page_step stream_keys since till st result = (st', false) /\
              offset st' = offset st /\ log st' = log st.
Proof.
  intros Hshort. unfold page_step.
  destruct (parse_trades_from_result result) as [|row rows] eqn:Hp; [eauto |].
  apply Z.ltb_lt in Hshort. rewrite Hshort.
  eexists. split; [reflexivity |]. apply reconcile_rows_offset_log.
Qed.


End Pagination.


(** A page of [n] copies of a well-formed trade parses to [n] records. *)
Lemma normalize_trades_repeat (t : json) (row : trade_row) (n : nat) :
  normalize_trade t = Ok (Some row) ->
  forall out, normalize_trades (repeat t n) out = Ok (out ++ repeat row n).
Proof.
  intros Ht. induction n as [|n IH]; intros out; simpl.
  - rewrite app_nil_r. reflexivity.
  - rewrite Ht. simpl. rewrite IH, <- app_assoc. reflexivity.
Qed.

Lemma parse_trades_repeat (t : json) (row : trade_row) (n : nat) :
  normalize_trade t = Ok (Some row) ->
  length (parse_trades_from_result (Plain (dex_payload (repeat t n)))) = n.
Proof.
  intros Ht. unfold parse_trades_from_result.
  change (parse_trades_body (Plain (dex_payload (repeat t n))))
    with (let trades := match JList (repeat t n) with JList ts => ts | t => [t] end in
          normalize_trades trades []).
  simpl. rewrite (normalize_trades_repeat t row n Ht). simpl. apply repeat_length.
Qed.





(** ** Retries *)

(** [k] transient failures, then an answer, from attempt [a] on. *)
Lemma execute_with_retry_recovers (off : Z) (result : py_result) (rest : list response) (k : nat) :
  forall (a : nat),
    (a + k < Z.to_nat QUERY_MAX_RETRIES)%nat ->
    execute_with_retry off
      (List.map Z.of_nat (seq a (Z.to_nat QUERY_MAX_RETRIES - a)))
      (repeat TransientFailure k ++ Response result :: rest)
    = (Fetched result, rest, retry_events off (Z.of_nat a + 1) k ++ [Request off]).
Proof.
  induction k as [|k IH]; intros a Ha.
  - destruct (Z.to_nat QUERY_MAX_RETRIES - a)%nat as [|n] eqn:Hn; [lia |]. reflexivity.
  - destruct (Z.to_nat QUERY_MAX_RETRIES - a)%nat as [|n] eqn:Hn; [lia |].
    simpl. replace (Z.of_nat a <? QUERY_MAX_RETRIES - 1) with true
      by (symmetry; apply Z.ltb_lt; unfold QUERY_MAX_RETRIES in *; lia).
    replace n with (Z.to_nat QUERY_MAX_RETRIES - S a)%nat by lia.
    rewrite (IH (S a)) by lia.
    replace (Z.of_nat (S a) + 1) with (Z.of_nat a + 1 + 1) by lia. reflexivity.
Qed.

(** C7.  A page fetch that fails transiently [k] times, [k] below
    [QUERY_MAX_RETRIES], and is then answered yields that answer, and
    the run goes on with the page ([page_step]); before retry number [n]
    it pauses [QUERY_RETRY_DELAY * n] seconds.  With
    [QUERY_MAX_RETRIES - 1] failures this is the last attempt.  A fetch
    that fails transiently [QUERY_MAX_RETRIES] times in a row raises, and
    the run is aborted with that error. *)
Theorem retry_policy (stream_keys : gset key) (since till : json) (fuel : nat)
    (st : query_state) (result : py_result) (rest : list response) :
  (forall k : nat,
     (k <= Z.to_nat (QUERY_MAX_RETRIES - 1))%nat ->
     let evs := retry_events (offset st) 1 k ++ [Request (offset st)] in
     execute_with_retry (offset st) (py_range QUERY_MAX_RETRIES)
       (repeat TransientFailure k ++ Response result :: rest)
     = (Fetched result, rest, evs) /\
     query_loop (S fuel) stream_keys since till
       (repeat TransientFailure k ++ Response result :: rest) st
     = let '(st', continue) := page_step stream_keys since till (add_log evs st) result in
       if continue then query_loop fuel stream_keys since till rest st'
       else (Finished st', rest)) /\
  (let evs := retry_events (offset st) 1 (Z.to_nat (QUERY_MAX_RETRIES - 1))
              ++ [Request (offset st)] in
   execute_with_retry (offset st) (py_range QUERY_MAX_RETRIES)
     (repeat TransientFailure (Z.to_nat QUERY_MAX_RETRIES) ++ rest)
   = (FetchRaised ConnectionError, rest, evs) /\
   query_loop (S fuel) stream_keys since till
     (repeat TransientFailure (Z.to_nat QUERY_MAX_RETRIES) ++ rest) st
   = (Aborted ConnectionError (add_log evs st), rest)).
Proof.
  split.
  - intros k Hk evs.
    assert (Hfetch : execute_with_retry (offset st) (py_range QUERY_MAX_RETRIES)
                       (repeat TransientFailure k ++ Response result :: rest)
                     = (Fetched result, rest, evs)).
    { apply (execute_with_retry_recovers (offset st) result rest k 0).
      unfold QUERY_MAX_RETRIES in *. lia. }
    split; [exact Hfetch |]. rewrite query_loop_S, Hfetch. reflexivity.
  - split; [reflexivity |]. rewrite query_loop_S. reflexivity.
Qed.

Lemma retry_policy_witness :
  let result := Plain (dex_payload []) in
  let evs := [Request 0; Sleep 5; Request 0; Sleep 10; Request 0; Sleep 15; Request 0] in
  execute_with_retry 0 (py_range QUERY_MAX_RETRIES)
    [TransientFailure; TransientFailure; TransientFailure; Response result; OtherFailure]
  = (Fetched result, [OtherFailure], evs) /\
  query_loop 1 ∅ (JStr "a") (JStr "b")
    [TransientFailure; TransientFailure; TransientFailure; Response result; OtherFailure]
    query_state_init
  = (Finished (add_log evs query_state_init), [OtherFailure]).
Proof.
  intros result evs.
  apply (proj1 (retry_policy ∅ (JStr "a") (JStr "b") 0 query_state_init result [OtherFailure]) 3%nat).
  vm_compute. lia.
Defined.

(** ** The fuel of the loop is never used up *)

Lemma execute_with_retry_shorter (off : Z) (attempts : list Z) :
  forall (script rest : list response) (out : fetch_outcome) (evs : list event),
    execute_with_retry off attempts script = (out, rest, evs) ->
    forall result, out = Fetched result -> (length rest < length script)%nat.
Proof.
  induction attempts as [|attempt attempts IH]; intros script rest out evs H result Hout;
    simpl in H.
  - injection H as <- _ _. discriminate.
  - destruct script as [|[r | |] script']; try (injection H as <- _ _; discriminate).
    + injection H as _ <- _. simpl. lia.
    + destruct (attempt <? QUERY_MAX_RETRIES - 1); [| injection H as <- _ _; discriminate].
      destruct (execute_with_retry off attempts script') as [[out' rest'] evs'] eqn:Hrec.
      injection H as <- <- _. specialize (IH _ _ _ _ Hrec result Hout). simpl. lia.
Qed.

Lemma query_loop_fuel (stream_keys : gset key) (since till : json) (fuel : nat) :
  forall (script : list response) (st : query_state),
    (length script < fuel)%nat ->
    forall st', fst (query_loop fuel stream_keys since till script st) <> OutOfFuel st'.
Proof.
  induction fuel as [|fuel IH]; intros script st Hfuel st'; [lia |].
  rewrite query_loop_S.
  destruct (execute_with_retry (offset st) (py_range QUERY_MAX_RETRIES) script)
    as [[out script'] evs] eqn:Hfetch.
  destruct out as [result | e |]; try discriminate.
  pose proof (execute_with_retry_shorter _ _ _ _ _ _ Hfetch result eq_refl) as Hlen.
  destruct (page_step stream_keys since till (add_log evs st) result) as [st1 continue].
  destruct continue; [apply IH; lia | discriminate].
Qed.

(** [run_query_and_compare] gives the loop enough fuel. *)
Lemma run_query_and_compare_total (state : StreamState) (script : list response)
    (st : query_state) (unread : list response) (share : option Q) :
  run_query_and_compare state script <> Ran (OutOfFuel st) unread share.
Proof.
  unfold run_query_and_compare.
  destruct (min_time state) as [since|]; [| discriminate].
  destruct (max_time state) as [till|]; [| discriminate].
  destruct (negb (py_truthy since) || negb (py_truthy till)); [discriminate |].
  pose proof (query_loop_fuel (load_stream_keys (_file state)) since till
                (S (length script)) script query_state_init (Nat.lt_succ_diag_r _)) as Hfuel.
  destruct (query_loop _ _ _ _ script query_state_init) as [out unread'].
  simpl in Hfuel.
  destruct out as [st1 | e st1 | st1 | st1]; try discriminate.
  - destruct (missing_share st1); discriminate.
  - intros H. injection H as -> _ _. exact (Hfuel st eq_refl).
Qed.

(** ** The missing share *)

(** C8.  The missing share is computed exactly when
    [total_query_count] is positive, and is then
    [mismatch_count / total_query_count * 100]; when no record was
    counted the line is left out; in no state does the division raise
    [ZeroDivisionError]. *)
Theorem missing_share_guarded (st : query_state) :
  (0 < total_query_count st ->
   exists pct, missing_share st = Ok (Some pct) /\
               (pct == inject_Z (mismatch_count st) / inject_Z (total_query_count st) * 100)%Q) /\
  (total_query_count st = 0 -> missing_share st = Ok None) /\
  (forall e, missing_share st <> Raise e).
Proof.
  split; [| split].
  - intros Hpos. unfold missing_share, py_truediv.
    rewrite (proj2 (Z.ltb_lt _ _) Hpos).
    assert (Hnz : ~ (inject_Z (total_query_count st) == 0)%Q).
    { unfold Qeq, inject_Z. simpl. lia. }
    destruct (Qeq_bool (inject_Z (total_query_count st)) 0) eqn:Hz;
      [apply Qeq_bool_iff in Hz; contradiction |].
    simpl. eexists. split; [reflexivity |]. field. exact Hnz.
  - intros Hzero. unfold missing_share. rewrite Hzero. reflexivity.
  - intros e. destruct (missing_share_Ok st) as (share & ->). discriminate.
Qed.

Lemma missing_share_guarded_witness :
  let st := {| mismatch_count := 1; boundary_excluded_count := 0; total_query_count := 4;
               offset := 0; first_result_time := None; last_result_time := None;
               query_file := []; mismatch_file := []; log := [] |} in
  exists pct, missing_share st = Ok (Some pct) /\ (pct == inject_Z 1 / inject_Z 4 * 100)%Q.
Proof.
  intros st. apply (proj1 (missing_share_guarded st)). simpl. lia.
Defined.

(** ** Pages that do not parse *)

(** An element on which the loop body raises empties the whole page,
    whatever stands before and after it. *)
Lemma normalize_trades_raises (bad : json) (e : exn) (after : list json) :
  normalize_trade bad = Raise e ->
  forall (before : list json) (out : list trade_row),
    exists e', normalize_trades (before ++ bad :: after) out = Raise e'.
Proof.
  intros Hbad before. induction before as [|t before IH]; intros out; simpl.
  - rewrite Hbad. simpl. eauto.
  - destruct (normalize_trade t) as [r|e']; simpl; [apply IH | eauto].
Qed.

Lemma malformed_element_empties_page (bad : json) (e : exn) (before after : list json) :
  normalize_trade bad = Raise e ->
  parse_trades_from_result (Plain (dex_payload (before ++ bad :: after))) = [].
Proof.
  intros Hbad. unfold parse_trades_from_result.
  change (parse_trades_body (Plain (dex_payload (before ++ bad :: after))))
    with (normalize_trades (before ++ bad :: after) []).
  destruct (normalize_trades_raises bad e after Hbad before []) as (e' & ->). reflexivity.
Qed.

(** C10.  A fetched page on which the normaliser returns no record, be
    it empty, of the wrong shape, or emptied by an exception, ends the
    loop like an exhausted range: the run is [Finished] in the state it
    had (only the request is logged), no error is raised, nothing more
    is read from the endpoint, and the summary is produced. *)
Theorem unparsable_page_ends_run (stream_keys : gset key) (since till : json) (fuel : nat)
    (st : query_state) (result : py_result) (rest : list response) :
  parse_trades_from_result result = [] ->
  query_loop (S fuel) stream_keys since till (Response result :: rest) st
  = (Finished (add_log [Request (offset st)] st), rest) /\
  exists share, missing_share (add_log [Request (offset st)] st) = Ok share.
Proof.
  intros Hparse. split; [| apply missing_share_Ok].
  rewrite query_loop_S, execute_with_retry_success. unfold page_step. rewrite Hparse.
  reflexivity.
Qed.

Lemma unparsable_page_ends_run_witness :
  let result := Plain (dex_payload
                  [dex_trade (JStr "2024-01-01T00:00:07Z") (JStr "S1") (JInt 0) (JInt 0);
                   JStr "unexpected"]) in
  let rest := [Response result] in
  query_loop 2 ∅ (JStr "2024-01-01T00:00:05Z") (JStr "2024-01-01T00:00:10Z")
             (Response result :: rest) query_state_init
  = (Finished (add_log [Request 0] query_state_init), rest) /\
  exists share, missing_share (add_log [Request 0] query_state_init) = Ok share.
Proof.
  intros result rest.
  apply (unparsable_page_ends_run ∅ (JStr "2024-01-01T00:00:05Z") (JStr "2024-01-01T00:00:10Z")
           1 query_state_init result rest).
  reflexivity.
Defined.

(** ** Matching across the two legs *)

Lemma write_trade_file (st st' : StreamState) (row : trade_row) :
  write_trade st (blocktime row) (signature row)
    (py_or (txn_index row) (JInt 0)) (py_or (trade_index row) (JInt 0)) = Ok st' ->
  _file st' = _file st ++ [stream_line row].
Proof.
  unfold write_trade. intros H. exc_inv H. injection H as <-. reflexivity.
Qed.

Lemma collect_rows_file (rows : list trade_row) :
  forall st st' : StreamState,
    collect_rows rows st = Ok st' -> _file st' = _file st ++ List.map stream_line rows.
Proof.
  induction rows as [|row rows IH]; intros st st' H; simpl in H.
  - injection H as <-. rewrite app_nil_r. reflexivity.
  - exc_inv H. rewrite (IH _ _ H), (write_trade_file _ _ _ Hget), <- app_assoc. reflexivity.
Qed.

Lemma load_stream_keys_spec (file : list csv_row) (k : key) :
  k ∈ load_stream_keys file <-> exists line, In line file /\ stream_key line = k.
Proof.
  unfold load_stream_keys.
  assert (Hgen : forall keys : gset key,
             k ∈ foldl (fun keys line => keys ∪ {[ stream_key line ]}) keys file
             <-> k ∈ keys \/ exists line, In line file /\ stream_key line = k).
  { induction file as [|line file IH]; intros keys; simpl.
    - split; [auto | intros [H | (l & [] & _)]; exact H].
    - rewrite IH, elem_of_union, elem_of_singleton. split.
      + intros [[H | H] | (l & Hl & Hk)]; eauto 6.
      + intros [H | (l & [<- | Hl] & Hk)]; eauto 6. }
  rewrite Hgen. split; [intros [H | H]; [set_solver | exact H] | auto].
Qed.

(** The integer index of a record is rendered alike on both sides. *)
Lemma stream_key_int (row : trade_row) (n m : Z) :
  txn_index row = JInt n -> trade_index row = JInt m ->
  stream_key (stream_line row) = query_key row.
Proof.
  intros Hn Hm. unfold stream_key, stream_line, query_key, py_or. simpl.
  rewrite Hn, Hm. simpl.
  destruct (Z.eqb_spec n 0) as [-> |_]; destruct (Z.eqb_spec m 0) as [-> |_]; reflexivity.
Qed.

(** Where the two legs agree: a record both sides received with integer
    indexes is found in the live index. *)
Lemma present_index_matched (rows : list trade_row) (st : StreamState)
    (row : trade_row) (n m : Z) :
  collect_rows rows StreamState_new = Ok st -> In row rows ->
  txn_index row = JInt n -> trade_index row = JInt m ->
  query_key row ∈ load_stream_keys (_file st).
Proof.
  intros Hrun Hin Hn Hm. apply load_stream_keys_spec.
  exists (stream_line row). split; [| eapply stream_key_int; eassumption].
  rewrite (collect_rows_file _ _ _ Hrun). simpl. apply in_map, Hin.
Qed.

(** [str] of an integer has at least one character. *)
Lemma str_int_nonempty (n : Z) : str_int n <> "".
Proof.
  unfold str_int. destruct n as [|p|p]; simpl; try discriminate.
  pose proof (DecimalPos.Unsigned.to_uint_nonnil p) as Hnil.
  destruct (Pos.to_uint p); simpl; first [contradiction | discriminate].
Qed.

(** The live leg never writes an empty index cell: what is empty or
    null has become 0. *)
Lemma csv_field_or_zero (v : json) : csv_field (py_or v (JInt 0)) <> "".
Proof.
  unfold py_or. destruct v as [|[|]|n|s|[|x xs]|[|kv kvs]]; simpl; try discriminate.
  - destruct (Z.eqb_spec n 0) as [-> | Hn]; simpl; [discriminate | apply str_int_nonempty].
  - destruct (String.eqb_spec s "") as [-> | Hs]; simpl; [discriminate | exact Hs].
Qed.

(** The defect behind C1, in general: a query record whose transaction
    or trade index was absent upstream is never found in the live
    index, whatever the stream delivered. *)
Lemma absent_index_never_matched (rows : list trade_row) (st : StreamState)
    (row : trade_row) :
  collect_rows rows StreamState_new = Ok st ->
  txn_index row = JStr "" \/ trade_index row = JStr "" ->
  query_key row ∉ load_stream_keys (_file st).
Proof.
  intros Hrun Habsent Hin. apply load_stream_keys_spec in Hin.
  destruct Hin as (line & Hline & Hkey).
  rewrite (collect_rows_file _ _ _ Hrun) in Hline. simpl in Hline.
  apply in_map_iff in Hline. destruct Hline as (r & <- & _).
  unfold stream_key, stream_line, query_key in Hkey. simpl in Hkey.
  injection Hkey as _ Htx Htr.
  destruct Habsent as [H | H]; rewrite H in *; simpl in *.
  - exact (csv_field_or_zero _ Htx).
  - exact (csv_field_or_zero _ Htr).
Qed.

(** C1: the code at the failing input.  The live leg and the query
    return the same three trades, the middle one with a null
    transaction index.  The live leg writes 0 for it, the query leg
    keeps the empty text, the keys differ, and the trade is reported as
    a mismatch although the stream delivered it.  The same happens when
    only the query side lacks the index and the live side has 0. *)
Theorem absent_index_reported_missing :
  (exists st share,
     main [ExecutionResult (three_trades JNull)] [Response (Plain (three_trades JNull))]
     = Ok (Ran (Finished st) [] share) /\
     total_query_count st = 3 /\ boundary_excluded_count st = 0 /\ mismatch_count st = 1 /\
     mismatch_file st = [CsvRow "2024-01-01T00:00:07Z" "S2" "" "0"]) /\
  (exists st share,
     main [ExecutionResult (three_trades (JInt 0))] [Response (Plain (three_trades JNull))]
     = Ok (Ran (Finished st) [] share) /\
     total_query_count st = 3 /\ boundary_excluded_count st = 0 /\ mismatch_count st = 1 /\
     mismatch_file st = [CsvRow "2024-01-01T00:00:07Z" "S2" "" "0"]).
Proof.
  split; vm_compute; do 2 eexists; repeat split.
Qed.

(** The scenario of the specification: the stream delivered [S1] and
    [S2]; the query also returns [S3], at the opening second of the
    range.  [S1] and [S2] are matched, [S3] is boundary-excluded and
    nothing is reported as a mismatch. *)
Example boundary_scenario :
  let t1 := dex_trade (JStr "2024-01-01T00:00:05") (JStr "S1") (JInt 0) (JInt 0) in
  let t2 := dex_trade (JStr "2024-01-01T00:00:10") (JStr "S2") (JInt 1) (JInt 0) in
  let t3 := dex_trade (JStr "2024-01-01T00:00:05") (JStr "S3") (JInt 0) (JInt 0) in
  exists st share,
    main [ExecutionResult (dex_payload [t1]); ExecutionResult (dex_payload [t2])]
         [Response (Plain (dex_payload [t1; t3; t2]))]
    = Ok (Ran (Finished st) [] (Some share)) /\ (share == 0)%Q /\
    total_query_count st = 3 /\ boundary_excluded_count st = 1 /\ mismatch_count st = 0 /\
    mismatch_file st = [] /\ log st = [Request 0].
Proof. vm_compute. do 2 eexists. repeat split. Qed.

(** * Further properties of the code *)

(** ** The normaliser, element by element *)

Lemma section_get_ok (kvs : list (string * json)) (name k : string) :
  section_ok kvs name = true ->
  exists w, py_get (py_or (default JNull (dict_get name kvs)) (JDict [])) k = Ok w.
Proof.
  unfold section_ok, py_or. destruct (py_truthy _) eqn:Hv; simpl; [| eauto].
  destruct (default JNull (dict_get name kvs)); simpl; try discriminate. eauto.
Qed.

Lemma section_get_raise (kvs : list (string * json)) (name k : string) :
  section_ok kvs name = false ->
  py_get (py_or (default JNull (dict_get name kvs)) (JDict [])) k = Raise AttributeError.
Proof.
  unfold section_ok, py_or. destruct (py_truthy _) eqn:Hv; simpl; [| discriminate].
  destruct (default JNull (dict_get name kvs)); simpl; try reflexivity. discriminate.
Qed.

(** The loop body returns on a well-shaped element and raises
    [AttributeError] on any other. *)
Lemma normalize_trade_shape (t : json) :
  match normalize_trade t with
  | Ok _ => well_shaped t = true
  | Raise e => e = AttributeError /\ well_shaped t = false
  end.
Proof.
  destruct t as [| b | n | s | xs | kvs]; simpl; try (split; reflexivity).
  unfold normalize_trade. simpl py_get. simpl exc_bind.
  destruct (section_ok kvs "Block") eqn:Hb.
  - destruct (section_get_ok kvs "Block" "Time" Hb) as (bt & ->). simpl exc_bind.
    destruct (section_ok kvs "Transaction") eqn:Hx.
    + destruct (section_get_ok kvs "Transaction" "Signature" Hx) as (sg & ->).
      destruct (section_get_ok kvs "Transaction" "Index" Hx) as (ti & ->).
      simpl exc_bind. destruct (section_ok kvs "Trade") eqn:Hr.
      * destruct (section_get_ok kvs "Trade" "Index" Hr) as (tri & ->). simpl exc_bind.
        destruct (py_truthy (py_or bt (JStr "")) && _); reflexivity.
      * rewrite (section_get_raise kvs "Trade" "Index" Hr). simpl. split; reflexivity.
    + rewrite (section_get_raise kvs "Transaction" "Signature" Hx). simpl. split; reflexivity.
  - rewrite (section_get_raise kvs "Block" "Time" Hb). simpl. split; reflexivity.
Qed.

(** X1.  The loop body of [parse_trades_from_result] returns (with or
    without a record) exactly on an element that is an object whose
    [Block], [Transaction] and [Trade] sections are each missing, falsy
    or an object; on any other element it raises, and what it raises is
    an [AttributeError]. *)
Theorem normalize_trade_raises_iff (t : json) :
  ((exists r, normalize_trade t = Ok r) <-> well_shaped t = true) /\
  (normalize_trade t = Raise AttributeError <-> well_shaped t = false) /\
  (forall e, normalize_trade t = Raise e -> e = AttributeError).
Proof.
  pose proof (normalize_trade_shape t) as H.
  destruct (normalize_trade t) as [r|e].
  - rewrite H. repeat split; try discriminate; eauto.
  - destruct H as [-> H]. rewrite H. repeat split; try discriminate; try congruence.
    intros [r Hr]. discriminate.
Qed.

Lemma normalize_trades_accepted (trades : list json) :
  Forall (fun t => well_shaped t = true) trades ->
  forall out, normalize_trades trades out = Ok (out ++ flat_map accepted trades).
Proof.
  induction 1 as [|t trades Ht _ IH]; intros out; simpl.
  - rewrite app_nil_r. reflexivity.
  - pose proof (normalize_trade_shape t) as Hn. unfold accepted.
    destruct (normalize_trade t) as [[row|]|e]; simpl.
    + rewrite IH, <- app_assoc. reflexivity.
    + apply IH.
    + destruct Hn as [_ Hn]. congruence.
Qed.

(** X2.  On a page whose elements are all well shaped the normaliser
    returns the accepted records in the order of the page, skipping the
    others; nothing is reordered, added or duplicated. *)
Theorem parse_trades_keeps_order (trades : list json) :
  Forall (fun t => well_shaped t = true) trades ->
  parse_trades_from_result (Plain (dex_payload trades)) = flat_map accepted trades /\
  parse_trades_from_result (ExecutionResult (dex_payload trades)) = flat_map accepted trades.
Proof.
  intros Hall. unfold parse_trades_from_result.
  change (parse_trades_body (Plain (dex_payload trades)))
    with (normalize_trades trades []).
  change (parse_trades_body (ExecutionResult (dex_payload trades)))
    with (normalize_trades trades []).
  rewrite (normalize_trades_accepted trades Hall []). split; reflexivity.
Qed.

Lemma parse_trades_keeps_order_witness :
  let t1 := dex_trade (JStr "2024-01-01T00:00:05Z") (JStr "S1") (JInt 0) (JInt 0) in
  let skipped := JDict [("Block", JNull); ("Transaction", JDict [("Signature", JStr "S2")])] in
  let t3 := dex_trade (JStr "2024-01-01T00:00:04Z") (JStr "S3") (JInt 7) (JInt 1) in
  parse_trades_from_result (Plain (dex_payload [t1; skipped; t3]))
    = flat_map accepted [t1; skipped; t3] /\
  parse_trades_from_result (ExecutionResult (dex_payload [t1; skipped; t3]))
    = flat_map accepted [t1; skipped; t3].
Proof.
  intros t1 skipped t3. apply (parse_trades_keeps_order [t1; skipped; t3]).
  repeat constructor.
Defined.

(** X3.  One element that is not well shaped empties the whole page:
    the records of the well-shaped elements before and after it are
    lost with it, and no exception leaves the normaliser. *)
Theorem ill_shaped_element_empties_page (trades : list json) :
  Exists (fun t => well_shaped t = false) trades ->
  parse_trades_from_result (Plain (dex_payload trades)) = [] /\
  parse_trades_from_result (ExecutionResult (dex_payload trades)) = [].
Proof.
  intros Hex. apply List.Exists_exists in Hex. destruct Hex as (bad & Hin & Hbad).
  apply in_split in Hin. destruct Hin as (before & after & ->).
  pose proof (normalize_trade_shape bad) as Hshape.
  destruct (normalize_trade bad) as [r|e] eqn:Hn; [congruence |].
  unfold parse_trades_from_result.
  change (parse_trades_body (Plain (dex_payload (before ++ bad :: after))))
    with (normalize_trades (before ++ bad :: after) []).
  change (parse_trades_body (ExecutionResult (dex_payload (before ++ bad :: after))))
    with (normalize_trades (before ++ bad :: after) []).
  destruct (normalize_trades_raises bad e after Hn before []) as (e' & ->).
  split; reflexivity.
Qed.

Lemma ill_shaped_element_empties_page_witness :
  let trades := [dex_trade (JStr "2024-01-01T00:00:05Z") (JStr "S1") (JInt 0) (JInt 0);
                 JDict [("Block", JStr "unexpected")];
                 dex_trade (JStr "2024-01-01T00:00:06Z") (JStr "S2") (JInt 0) (JInt 0)] in
  parse_trades_from_result (Plain (dex_payload trades)) = [] /\
  parse_trades_from_result (ExecutionResult (dex_payload trades)) = [].
Proof.
  intros trades. apply (ill_shaped_element_empties_page trades).
  apply Exists_cons_tl, Exists_cons_hd. reflexivity.
Defined.

(** X4.  An index that is present is kept as it is, also when it is 0;
    and no emitted record has [None] in an index field. *)
Theorem normalize_trade_keeps_index (t : json) (row : trade_row) :
  normalize_trade t = Ok (Some row) ->
  (forall v, nested_get t "Transaction" "Index" = Ok v -> v <> JNull -> txn_index row = v) /\
  (forall v, nested_get t "Trade" "Index" = Ok v -> v <> JNull -> trade_index row = v) /\
  txn_index row <> JNull /\ trade_index row <> JNull.
Proof.
  intros H. apply normalize_trade_inv in H.
  destruct H as (bt & sg & ti & tri & _ & _ & Hti & Htri & _ & ->). simpl.
  repeat split.
  - intros v Hv Hnn. rewrite Hti in Hv. injection Hv as ->.
    destruct v; simpl; congruence.
  - intros v Hv Hnn. rewrite Htri in Hv. injection Hv as ->.
    destruct v; simpl; congruence.
  - destruct ti; simpl; discriminate.
  - destruct tri; simpl; discriminate.
Qed.

Lemma normalize_trade_keeps_index_witness :
  let row := {| blocktime := JStr "2024-01-01T00:00:05Z"; signature := "S1";
                txn_index := JInt 0; trade_index := JInt 3 |} in
  txn_index row = JInt 0 /\ trade_index row = JInt 3.
Proof.
  intros row.
  destruct (normalize_trade_keeps_index
              (dex_trade (JStr "2024-01-01T00:00:05Z") (JStr "S1") (JInt 0) (JInt 3)) row
              eq_refl) as (Htx & Htr & _).
  split; [apply Htx | apply Htr]; solve [reflexivity | discriminate].
Defined.

(** ** Envelopes *)

(** X5.  The records do not depend on the envelope: a non-empty [data]
    value gives the same records whether it comes as the [data]
    attribute of an [ExecutionResult], under a [data] key, or under
    [payload] and then [data]; a dict with neither key is read as the
    data itself. *)
Theorem envelope_independent (d : json) (env inner : list (string * json)) :
  (py_truthy d = true ->
   dict_get "payload" env = None -> dict_get "data" env = Some d ->
   parse_trades_from_result (Plain (JDict env)) = parse_trades_from_result (ExecutionResult d)) /\
  (py_truthy d = true ->
   dict_get "payload" env = Some (JDict inner) -> dict_get "data" inner = Some d ->
   parse_trades_from_result (Plain (JDict env)) = parse_trades_from_result (ExecutionResult d)) /\
  (dict_get "payload" env = None -> dict_get "data" env = None ->
   parse_trades_from_result (Plain (JDict env))
   = parse_trades_from_result (ExecutionResult (JDict env))).
Proof.
  unfold parse_trades_from_result, parse_trades_body, dict_mem.
  split; [| split].
  - intros Hd Hp Hdata. rewrite Hp. cbn [py_get]. rewrite Hdata.
    unfold py_or. cbn. rewrite Hd. reflexivity.
  - intros Hd Hp Hdata. rewrite Hp. cbn [py_get default from_option id]. rewrite Hdata.
    unfold py_or. cbn. rewrite Hd. reflexivity.
  - intros Hp Hdata. rewrite Hp. cbn [py_get]. rewrite Hdata. reflexivity.
Qed.

Lemma envelope_independent_witness :
  let d := dex_payload [dex_trade (JStr "2024-01-01T00:00:05Z") (JStr "S1") (JInt 0) (JInt 0)] in
  parse_trades_from_result (Plain (JDict [("type", JStr "data"); ("data", d)]))
  = parse_trades_from_result (ExecutionResult d).
Proof.
  intros d.
  apply (proj1 (envelope_independent d [("type", JStr "data"); ("data", d)] []));
    reflexivity.
Defined.

(** X6.  Any value other than a list in place of the list of trades
    is read as the list of that one value: a single trade object gives
    the records of the one-element list. *)
Theorem singleton_trade_is_list (t : json) :
  (forall ts, t <> JList ts) ->
  parse_trades_from_result (ExecutionResult (JDict [("Solana", JDict [("DEXTrades", t)])]))
  = parse_trades_from_result (ExecutionResult (dex_payload [t])).
Proof.
  intros Hlist.
  destruct t as [| b | n | s | xs | kvs]; try reflexivity.
  exfalso. exact (Hlist xs eq_refl).
Qed.

Lemma singleton_trade_is_list_witness :
  let t := dex_trade (JStr "2024-01-01T00:00:05Z") (JStr "S1") (JInt 0) (JInt 0) in
  parse_trades_from_result (ExecutionResult (JDict [("Solana", JDict [("DEXTrades", t)])]))
  = parse_trades_from_result (ExecutionResult (dex_payload [t])).
Proof.
  intros t. apply (singleton_trade_is_list t). intros ts. discriminate.
Defined.

(** ** The live leg and its sink *)

Lemma write_trade_inv (st st' : StreamState) (bt : json) (sig : string) (ti tri : json) :
  write_trade st bt sig ti tri = Ok st' ->
  _file st' = _file st ++ [CsvRow (csv_field bt) sig (csv_field ti) (csv_field tri)] /\
  count st' = count st + 1 /\
  (min_time st' = Some bt \/ min_time st' = min_time st /\ min_time st <> None) /\
  (max_time st' = Some bt \/ max_time st' = max_time st /\ max_time st <> None).
Proof.
  unfold write_trade. intros H. exc_inv H. injection H as <-. simpl.
  repeat split.
  - destruct (min_time st); [| injection Hget as <-; now left].
    destruct v; [now left | right; split; [reflexivity | discriminate]].
  - destruct (max_time st); [| injection Hget0 as <-; now left].
    destruct v0; [now left | right; split; [reflexivity | discriminate]].
Qed.

Lemma collect_rows_count (rows : list trade_row) :
  forall st st' : StreamState,
    collect_rows rows st = Ok st' -> count st' = count st + Z.of_nat (length rows).
Proof.
  induction rows as [|row rows IH]; intros st st' H; simpl in H.
  - injection H as <-. simpl. lia.
  - exc_inv H. apply write_trade_inv in Hget. destruct Hget as (_ & Hc & _).
    rewrite (IH _ _ H), Hc. simpl length. lia.
Qed.

Lemma live_sink_lines (results : list py_result) (st : StreamState) :
  subscribe_and_collect results StreamState_new = Ok st ->
  _file st = List.map stream_line (List.concat (List.map parse_trades_from_result results)).
Proof.
  rewrite subscribe_and_collect_rows. intros H. apply (collect_rows_file _ _ _ H).
Qed.

(** X7.  When the live leg ends without an exception, the stream sink
    holds one line for every record of every payload, in order of
    arrival, and [count] is the number of those lines. *)
Theorem live_sink_complete (results : list py_result) (st : StreamState) :
  subscribe_and_collect results StreamState_new = Ok st ->
  _file st = List.map stream_line (List.concat (List.map parse_trades_from_result results)) /\
  count st = Z.of_nat (length (_file st)).
Proof.
  rewrite subscribe_and_collect_rows. intros H.
  pose proof (collect_rows_file _ _ _ H) as Hfile.
  pose proof (collect_rows_count _ _ _ H) as Hcount. simpl in Hfile, Hcount.
  split; [exact Hfile |]. rewrite Hcount, Hfile, length_map. reflexivity.
Qed.

Lemma live_sink_complete_witness :
  let t1 := dex_trade (JStr "2024-01-01T00:00:05Z") (JStr "S1") (JInt 4) JNull in
  let t2 := dex_trade (JStr "2024-01-01T00:00:06Z") (JStr "S2") (JInt 0) (JInt 1) in
  let results := [ExecutionResult (dex_payload [t1]); ExecutionResult JNull;
                  ExecutionResult (dex_payload [t2])] in
  let st := {| min_time := Some (JStr "2024-01-01T00:00:05Z");
               max_time := Some (JStr "2024-01-01T00:00:06Z");
               count := 2;
               _file := [CsvRow "2024-01-01T00:00:05Z" "S1" "4" "0";
                         CsvRow "2024-01-01T00:00:06Z" "S2" "0" "1"] |} in
  _file st = List.map stream_line (List.concat (List.map parse_trades_from_result results)) /\
  count st = Z.of_nat (length (_file st)).
Proof.
  intros t1 t2 results st. apply (live_sink_complete results st). reflexivity.
Defined.

(** [csv.writer] leaves no empty cell for a truthy value. *)
Lemma csv_field_truthy (v : json) : py_truthy v = true -> csv_field v <> "".
Proof.
  destruct v as [|[|]|n|s|[|x xs]|[|kv kvs]]; simpl; try discriminate.
  - intros _. apply str_int_nonempty.
  - destruct (String.eqb_spec s ""); [discriminate | auto].
Qed.

(** X8.  No line of the stream sink has an empty block time or an
    empty index cell: an absent index has become 0 before the line is
    written.  (The signature cell can be empty.) *)
Theorem live_sink_cells (results : list py_result) (st : StreamState) :
  subscribe_and_collect results StreamState_new = Ok st ->
  Forall (fun line => csv_blocktime line <> "" /\ csv_txn_index line <> "" /\
                      csv_trade_index line <> "") (_file st).
Proof.
  intros H. rewrite (live_sink_lines results st H).
  apply List.Forall_forall. intros line Hline. apply in_map_iff in Hline.
  destruct Hline as (row & <- & Hrow). apply in_concat in Hrow.
  destruct Hrow as (rows & Hrows & Hrow). apply in_map_iff in Hrows.
  destruct Hrows as (result & <- & _). simpl. repeat split.
  - apply csv_field_truthy. eapply parse_trades_blocktime, Hrow.
  - apply csv_field_or_zero.
  - apply csv_field_or_zero.
Qed.

Lemma live_sink_cells_witness :
  let t1 := dex_trade (JStr "2024-01-01T00:00:05Z") JNull JNull JNull in
  let st := {| min_time := Some (JStr "2024-01-01T00:00:05Z");
               max_time := Some (JStr "2024-01-01T00:00:05Z");
               count := 1;
               _file := [CsvRow "2024-01-01T00:00:05Z" "" "0" "0"] |} in
  Forall (fun line => csv_blocktime line <> "" /\ csv_txn_index line <> "" /\
                      csv_trade_index line <> "") (_file st).
Proof.
  intros t1 st. apply (live_sink_cells [ExecutionResult (dex_payload [t1])] st). reflexivity.
Defined.

(** X9.  A payload from which the normaliser returns nothing leaves no
    trace in the live leg: the state is the one the other payloads
    alone would have produced, and the loop goes on. *)
Theorem live_leg_skips_unparsable (before after : list py_result) (bad : py_result)
    (st : StreamState) :
  parse_trades_from_result bad = [] ->
  subscribe_and_collect (before ++ bad :: after) st
  = subscribe_and_collect (before ++ after) st.
Proof.
  intros Hbad. rewrite !subscribe_and_collect_rows, !List.map_app. simpl List.map.
  rewrite Hbad, !List.concat_app. reflexivity.
Qed.

Lemma live_leg_skips_unparsable_witness :
  let good := ExecutionResult
                (dex_payload [dex_trade (JStr "2024-01-01T00:00:05Z") (JStr "S1") (JInt 0) (JInt 0)]) in
  let bad := ExecutionResult (JDict [("Solana", JList [JStr "oops"])]) in
  subscribe_and_collect ([good] ++ bad :: [good]) StreamState_new
  = subscribe_and_collect ([good] ++ [good]) StreamState_new.
Proof.
  intros good bad. apply (live_leg_skips_unparsable [good] [good] bad StreamState_new).
  reflexivity.
Defined.

(** X10.  A record whose block time is a number, arriving after records
    with string block times, makes [write_trade] raise [TypeError]: the
    comparison with [min_time] is between an [int] and a [str], and the
    live leg ends with that exception. *)
Theorem live_leg_mixed_times (rows rest : list trade_row) (times : list string)
    (row : trade_row) (n : Z) :
  rows <> [] -> List.map blocktime rows = List.map JStr times ->
  blocktime row = JInt n ->
  collect_rows (rows ++ row :: rest) StreamState_new = Raise TypeError.
Proof.
  intros Hne Hmap Hn. rewrite collect_rows_app.
  assert (Hinit : range_ok [] StreamState_new).
  { split; [reflexivity |]. split; [intros _; split; reflexivity | intros H; now destruct H]. }
  destruct (collect_rows_range_ok rows times [] StreamState_new Hmap Hinit)
    as (st & -> & _ & _ & Hcons).
  simpl. destruct Hcons as (lo & hi & Hlo & Hhi & _).
  { destruct rows; [contradiction |]. destruct times; discriminate. }
  unfold write_trade. rewrite Hlo, Hn. reflexivity.
Qed.

Lemma live_leg_mixed_times_witness :
  collect_rows
    ([ {| blocktime := JStr "2024-01-01T00:00:05Z"; signature := "S1";
          txn_index := JInt 0; trade_index := JInt 0 |} ]
     ++ {| blocktime := JInt 1704067206; signature := "S2";
           txn_index := JInt 0; trade_index := JInt 0 |} :: [])
    StreamState_new
  = Raise TypeError.
Proof.
  apply (live_leg_mixed_times _ [] ["2024-01-01T00:00:05Z"] _ 1704067206);
    [discriminate | reflexivity | reflexivity].
Defined.

(** ** The live index *)

Lemma load_stream_keys_size (file : list csv_row) :
  (size (load_stream_keys file) <= length file)%nat.
Proof.
  unfold load_stream_keys.
  assert (Hgen : forall keys : gset key,
             (size (foldl (fun keys line => keys ∪ {[ stream_key line ]}) keys file)
              <= size keys + length file)%nat).
  { induction file as [|line file IH]; intros keys; simpl; [lia |].
    etransitivity; [apply IH |].
    pose proof (size_union_alt keys {[ stream_key line ]}) as Hu.
    pose proof (subseteq_size ({[ stream_key line ]} ∖ keys) {[ stream_key line ]}) as Hs.
    rewrite size_singleton in Hs. rewrite Hu.
    assert (Hone : (size ({[stream_key line]} ∖ keys) <= 1)%nat)
      by (apply Hs; apply subseteq_difference_l; reflexivity).
    lia. }
  specialize (Hgen ∅). rewrite size_empty in Hgen. exact Hgen.
Qed.

(** X11.  The number of keys loaded from the stream sink (the printed
    [stream_count]) never exceeds [count]: repeated keys are kept once. *)
Theorem stream_count_le_count (results : list py_result) (st : StreamState) :
  subscribe_and_collect results StreamState_new = Ok st ->
  Z.of_nat (size (load_stream_keys (_file st))) <= count st.
Proof.
  intros H. rewrite subscribe_and_collect_rows in H.
  pose proof (collect_rows_count _ _ _ H) as Hcount.
  pose proof (collect_rows_file _ _ _ H) as Hfile. simpl in Hcount, Hfile.
  pose proof (load_stream_keys_size (_file st)) as Hsize.
  rewrite Hfile, length_map in Hsize. rewrite Hfile, Hcount. lia.
Qed.

Lemma stream_count_le_count_witness :
  let t := dex_trade (JStr "2024-01-01T00:00:05Z") (JStr "S1") (JInt 0) (JInt 0) in
  let line := CsvRow "2024-01-01T00:00:05Z" "S1" "0" "0" in
  let st := {| min_time := Some (JStr "2024-01-01T00:00:05Z");
               max_time := Some (JStr "2024-01-01T00:00:05Z");
               count := 2; _file := [line; line] |} in
  Z.of_nat (size (load_stream_keys (_file st))) <= count st.
Proof.
  intros t line st.
  apply (stream_count_le_count [ExecutionResult (dex_payload [t; t])] st). reflexivity.
Defined.

(** ** [main] *)

(** After at least one record from the normaliser the time range is set
    and non-empty. *)
Lemma collect_rows_range_set (rows : list trade_row) :
  forall st st' : StreamState,
    Forall (fun row => py_truthy (blocktime row) = true) rows ->
    (min_time st = None /\ max_time st = None) \/
    (opt_truthy (min_time st) = true /\ opt_truthy (max_time st) = true) ->
    collect_rows rows st = Ok st' -> rows <> [] ->
    opt_truthy (min_time st') = true /\ opt_truthy (max_time st') = true.
Proof.
  induction rows as [|row rows IH]; intros st st' Hall Hst H Hne; [contradiction |].
  simpl in H. exc_inv H. inversion Hall as [|? ? Hrow Hrows]; subst.
  assert (Hv : opt_truthy (min_time v) = true /\ opt_truthy (max_time v) = true).
  { apply write_trade_inv in Hget. destruct Hget as (_ & _ & Hmin & Hmax). split.
    - destruct Hmin as [-> | [-> Hsome]]; [exact Hrow |].
      destruct Hst as [[Hn _] | [Ht _]]; [contradiction | exact Ht].
    - destruct Hmax as [-> | [-> Hsome]]; [exact Hrow |].
      destruct Hst as [[_ Hn] | [_ Ht]]; [contradiction | exact Ht]. }
  destruct rows as [|row' rows'].
  - simpl in H. injection H as <-. exact Hv.
  - apply (IH v st' Hrows (or_intror Hv) H). discriminate.
Qed.

Lemma run_query_and_compare_runs (state : StreamState) (script : list response) :
  opt_truthy (min_time state) = true -> opt_truthy (max_time state) = true ->
  run_query_and_compare state script <> Skipped.
Proof.
  unfold run_query_and_compare. intros Hmin Hmax.
  destruct (min_time state) as [since|]; [| discriminate].
  destruct (max_time state) as [till|]; [| discriminate].
  simpl in Hmin, Hmax. rewrite Hmin, Hmax. cbn [negb orb].
  destruct (query_loop _ _ _ _ script query_state_init) as [[st | e st | st | st] unread];
    try discriminate.
  destruct (missing_share st); discriminate.
Qed.

(** X12.  [main] leaves out the query leg exactly when the stream
    delivered no record; as soon as one record was collected the time
    range is set and non-empty, so the early return of
    [run_query_and_compare] is never taken from [main]. *)
Theorem main_skips_iff_nothing_collected (live : list py_result) (script : list response) :
  main live script = Ok Skipped <->
  List.concat (List.map parse_trades_from_result live) = [].
Proof.
  unfold main. rewrite subscribe_and_collect_rows. split.
  - intros H. exc_inv H.
    pose proof (collect_rows_count _ _ _ Hget) as Hcount. simpl in Hcount.
    destruct (Z.eqb_spec (count v) 0) as [Hz | Hnz].
    + destruct (List.concat _); [reflexivity | simpl in Hcount; lia].
    + injection H as H. exfalso.
      destruct (List.concat (List.map parse_trades_from_result live)) as [|row rows] eqn:Hrows;
        [simpl in Hcount; lia |].
      assert (Hall : Forall (fun row => py_truthy (blocktime row) = true) (row :: rows)).
      { apply List.Forall_forall. intros r Hr. rewrite <- Hrows in Hr.
        apply in_concat in Hr. destruct Hr as (page & Hpage & Hr).
        apply in_map_iff in Hpage. destruct Hpage as (result & <- & _).
        eapply parse_trades_blocktime, Hr. }
      destruct (collect_rows_range_set (row :: rows) StreamState_new v Hall
                  (or_introl (conj eq_refl eq_refl)) Hget) as [Hmin Hmax]; [discriminate |].
      exact (run_query_and_compare_runs v script Hmin Hmax H).
  - intros ->. reflexivity.
Qed.

(** ** The reconciler as a whole *)

Section Reconciler.

Context (stream_keys : gset key) (since till : json).

Lemma is_missed_or_boundary (row : trade_row) :
  is_missed stream_keys since till row = true ->
  is_boundary_excluded stream_keys since till row = false.
Proof.
  unfold is_missed, is_boundary_excluded.
  destruct (bool_decide _), (_at_time_boundary _ _ _); simpl; congruence.
Qed.

(** What one record changes, field by field. *)
Lemma reconcile_row_fields (st : query_state) (row : trade_row) :
  let st' := reconcile_row stream_keys since till st row in
  total_query_count st' = total_query_count st + 1 /\
  query_file st' = query_file st ++ [row_dict row] /\
  mismatch_count st' =
    mismatch_count st + (if is_missed stream_keys since till row then 1 else 0) /\
  mismatch_file st' =
    mismatch_file st ++ (if is_missed stream_keys since till row then [row_dict row] else []) /\
  boundary_excluded_count st' =
    boundary_excluded_count st
    + (if is_boundary_excluded stream_keys since till row then 1 else 0) /\
  offset st' = offset st /\ log st' = log st.
Proof.
  unfold reconcile_row, is_missed, is_boundary_excluded.
  destruct (bool_decide _), (_at_time_boundary _ _ _); simpl;
    rewrite ?app_nil_r, ?Z.add_0_r; repeat split.
Qed.

Lemma reconcile_rows_fields (rows : list trade_row) :
  forall st : query_state,
    let st' := reconcile_rows stream_keys since till st rows in
    total_query_count st' = total_query_count st + Z.of_nat (length rows) /\
    query_file st' = query_file st ++ List.map row_dict rows /\
    mismatch_count st' =
      mismatch_count st
      + Z.of_nat (length (List.filter (is_missed stream_keys since till) rows)) /\
    mismatch_file st' =
      mismatch_file st
      ++ List.map row_dict (List.filter (is_missed stream_keys since till) rows) /\
    boundary_excluded_count st' =
      boundary_excluded_count st
      + Z.of_nat (length (List.filter (is_boundary_excluded stream_keys since till) rows)).
Proof.
  unfold reconcile_rows. induction rows as [|row rows IH]; intros st; simpl.
  - rewrite !app_nil_r, !Z.add_0_r. repeat split.
  - destruct (IH (reconcile_row stream_keys since till st row))
      as (Ht & Hq & Hm & Hmf & Hb).
    destruct (reconcile_row_fields st row) as (Ht1 & Hq1 & Hm1 & Hmf1 & Hb1 & _).
    rewrite Ht, Hq, Hm, Hmf, Hb, Ht1, Hq1, Hm1, Hmf1, Hb1.
    destruct (is_missed stream_keys since till row),
             (is_boundary_excluded stream_keys since till row);
      simpl; rewrite <- ?app_assoc; simpl; repeat split; lia.
Qed.

(** X13.  What the reconciler does with a list of query records: every
    record goes to the query sink, in order; the mismatch sink receives,
    in the same order, exactly the records whose key is not in the live
    index and that are not at a boundary; the three counters are the
    numbers of records processed, missed and boundary-excluded. *)
Theorem reconcile_rows_spec (rows : list trade_row) :
  let st := reconcile_rows stream_keys since till query_state_init rows in
  query_file st = List.map row_dict rows /\
  mismatch_file st = List.map row_dict (List.filter (is_missed stream_keys since till) rows) /\
  total_query_count st = Z.of_nat (length rows) /\
  mismatch_count st = Z.of_nat (length (List.filter (is_missed stream_keys since till) rows)) /\
  boundary_excluded_count st =
    Z.of_nat (length (List.filter (is_boundary_excluded stream_keys since till) rows)).
Proof.
  destruct (reconcile_rows_fields rows query_state_init) as (Ht & Hq & Hm & Hmf & Hb).
  simpl. rewrite Ht, Hq, Hm, Hmf, Hb. repeat split.
Qed.

Lemma reconcile_row_sinks_agree (st : query_state) (row : trade_row) :
  sinks_agree st -> sinks_agree (reconcile_row stream_keys since till st row).
Proof.
  intros (Ht & Hm & Hb & Hle & Hsub).
  destruct (reconcile_row_fields st row) as (Ht1 & Hq1 & Hm1 & Hmf1 & Hb1 & _).
  unfold sinks_agree. rewrite Ht1, Hq1, Hm1, Hmf1, Hb1, !length_app.
  pose proof (is_missed_or_boundary row) as Hex.
  assert (Hin : forall line,
             In line (mismatch_file st ++
                      (if is_missed stream_keys since till row then [row_dict row] else [])) ->
             In line (query_file st ++ [row_dict row])).
  { intros line Hl. apply in_or_app. apply in_app_or in Hl.
    destruct Hl as [Hl | Hl]; [left; apply Hsub, Hl |].
    destruct (is_missed stream_keys since till row); [right; exact Hl | destruct Hl]. }
  destruct (is_missed stream_keys since till row),
           (is_boundary_excluded stream_keys since till row);
    try (specialize (Hex eq_refl); discriminate); simpl length;
    repeat split; solve [lia | exact Hin].
Qed.

Lemma reconcile_rows_sinks_agree (rows : list trade_row) :
  forall st, sinks_agree st -> sinks_agree (reconcile_rows stream_keys since till st rows).
Proof.
  unfold reconcile_rows. induction rows as [|row rows IH]; intros st Hst; simpl;
    [exact Hst | apply IH, reconcile_row_sinks_agree, Hst].
Qed.

Lemma page_step_sinks_agree (st : query_state) (result : py_result) :
  sinks_agree st -> sinks_agree (fst (page_step stream_keys since till st result)).
Proof.
  intros Hst. unfold page_step.
  destruct (parse_trades_from_result result) as [|row rows]; [exact Hst |].
  pose proof (reconcile_rows_sinks_agree (row :: rows) st Hst) as H.
  destruct (_ <? QUERY_LIMIT); exact H.
Qed.

Lemma query_loop_sinks_agree (fuel : nat) :
  forall (script : list response) (st : query_state),
    sinks_agree st ->
    sinks_agree (final_state (fst (query_loop fuel stream_keys since till script st))).
Proof.
  induction fuel as [|fuel IH]; intros script st Hst; [exact Hst |].
  rewrite query_loop_S.
  destruct (execute_with_retry (offset st) (py_range QUERY_MAX_RETRIES) script)
    as [[out script'] evs].
  destruct out as [result | e |]; try exact Hst.
  pose proof (page_step_sinks_agree (add_log evs st) result Hst) as Hp.
  destruct (page_step stream_keys since till (add_log evs st) result) as [st' continue].
  destruct continue; [apply IH, Hp | exact Hp].
Qed.

(** X14.  However the paginated loop ends (finished, aborted by an
    exception, or still waiting for an answer), the counters agree with
    the sinks: [total_query_count] is the number of lines of the query
    sink, [mismatch_count] the number of lines of the mismatch sink,
    every mismatch line is also a line of the query sink, and the
    mismatches and boundary exclusions together never exceed the
    total. *)
Theorem counters_agree_with_sinks (fuel : nat) (script : list response) :
  sinks_agree
    (final_state (fst (query_loop fuel stream_keys since till script query_state_init))).
Proof.
  apply query_loop_sinks_agree.
  repeat split; simpl; lia.
Qed.

Lemma same_data_refl (st : query_state) : same_data st st.
Proof. repeat split. Qed.

Lemma reconcile_row_same_data (st st' : query_state) (row : trade_row) :
  same_data st st' ->
  same_data (reconcile_row stream_keys since till st row)
            (reconcile_row stream_keys since till st' row).
Proof.
  intros (Hm & Hb & Ht & Hf & Hl & Hq & Hmf). unfold reconcile_row, same_data.
  destruct (bool_decide _); [destruct (_at_time_boundary _ _ _) |]; simpl;
    rewrite Hm, Hb, Ht, Hf, Hq, Hmf; repeat split.
Qed.

Lemma reconcile_rows_same_data (rows : list trade_row) :
  forall st st', same_data st st' ->
    same_data (reconcile_rows stream_keys since till st rows)
              (reconcile_rows stream_keys since till st' rows).
Proof.
  unfold reconcile_rows. induction rows as [|row rows IH]; intros st st' H; simpl;
    [exact H | apply IH, reconcile_row_same_data, H].
Qed.

Lemma reconcile_rows_app (rows rows' : list trade_row) (st : query_state) :
  reconcile_rows stream_keys since till st (rows ++ rows')
  = reconcile_rows stream_keys since till (reconcile_rows stream_keys since till st rows) rows'.
Proof. unfold reconcile_rows. apply foldl_app. Qed.

(** What a page leaves in the counters and sinks is what reconciling
    its records leaves. *)
Lemma page_step_same_data (st st0 : query_state) (result : py_result) :
  same_data st st0 ->
  same_data (fst (page_step stream_keys since till st result))
            (reconcile_rows stream_keys since till st0 (parse_trades_from_result result)).
Proof.
  intros H. unfold page_step.
  destruct (parse_trades_from_result result) as [|row rows]; [exact H |].
  pose proof (reconcile_rows_same_data (row :: rows) st st0 H) as Hr.
  destruct (_ <? QUERY_LIMIT); exact Hr.
Qed.

Lemma query_loop_pages_same_data (short : py_result) (rest : list response)
    (full : list py_result) :
  Forall (fun page => QUERY_LIMIT <= Z.of_nat (length (parse_trades_from_result page))) full ->
  Z.of_nat (length (parse_trades_from_result short)) < QUERY_LIMIT ->
  forall (fuel : nat) (st st0 : query_state),
    (length full < fuel)%nat -> same_data st st0 ->
    exists st',
      query_loop fuel stream_keys since till
                 (List.map Response full ++ Response short :: rest) st
      = (Finished st', rest) /\
      same_data st'
        (reconcile_rows stream_keys since till st0
           (List.concat (List.map parse_trades_from_result (full ++ [short])))).
Proof.
  intros Hfull Hshort. induction Hfull as [|page full Hpage _ IH]; intros fuel st st0 Hfuel Hsame;
    (destruct fuel as [|fuel]; [simpl in Hfuel; lia |]); rewrite query_loop_S; simpl List.map;
    simpl app; rewrite execute_with_retry_success.
  - pose proof (page_step_same_data (add_log [Request (offset st)] st) st0 short Hsame) as Hp.
    destruct (page_step_short stream_keys since till (add_log [Request (offset st)] st)
                short Hshort) as (st' & Hstep & _).
    rewrite Hstep in *. exists st'. split; [reflexivity |].
    simpl List.concat. rewrite app_nil_r. exact Hp.
  - pose proof (page_step_same_data (add_log [Request (offset st)] st) st0 page Hsame) as Hp.
    destruct (page_step_full stream_keys since till (add_log [Request (offset st)] st)
                page Hpage) as (st1 & Hstep & _).
    rewrite Hstep in *. simpl fst in Hp.
    destruct (IH fuel st1 _ ltac:(simpl in Hfuel; lia) Hp) as (st' & Hrun & Hdata).
    exists st'. split; [exact Hrun |].
    simpl List.concat. rewrite reconcile_rows_app. exact Hdata.
Qed.

End Reconciler.

(** ** Conservation, over the pages the run has read *)

Lemma answered_app (a b : list response) : answered (a ++ b) = answered a ++ answered b.
Proof.
  induction a as [|[r| |] a IH]; simpl; [reflexivity | rewrite IH; reflexivity | exact IH ..].
Qed.

(** The retry loop reads a prefix of the script, and the only answer in
    that prefix is the result it returns. *)
Lemma execute_with_retry_consumed (off : Z) (attempts : list Z) :
  forall (script rest : list response) (out : fetch_outcome) (evs : list event),
    execute_with_retry off attempts script = (out, rest, evs) ->
    exists consumed,
      script = consumed ++ rest /\
      answered consumed = match out with Fetched result => [result] | _ => [] end.
Proof.
  induction attempts as [|attempt attempts IH]; intros script rest out evs H; simpl in H.
  - injection H as <- <- _. exists []. split; reflexivity.
  - destruct script as [|[r | |] script'].
    + injection H as <- <- _. exists []. split; reflexivity.
    + injection H as <- <- _. exists [Response r]. split; reflexivity.
    + destruct (attempt <? QUERY_MAX_RETRIES - 1).
      * destruct (execute_with_retry off attempts script') as [[out' rest'] evs'] eqn:Hrec.
        injection H as <- <- _. destruct (IH _ _ _ _ Hrec) as (consumed & -> & Hans).
        exists (TransientFailure :: consumed). split; [reflexivity | exact Hans].
      * injection H as <- <- _. exists [TransientFailure]. split; reflexivity.
    + injection H as <- <- _. exists [OtherFailure]. split; reflexivity.
Qed.

(** The loop leaves the counters and sinks that the reconciler
    produces on the records of all the pages it has read. *)
Lemma query_loop_consumed (stream_keys : gset key) (since till : json) (fuel : nat) :
  forall (script : list response) (st st0 : query_state),
    same_data st st0 ->
    exists consumed,
      script = consumed ++ snd (query_loop fuel stream_keys since till script st) /\
      same_data
        (final_state (fst (query_loop fuel stream_keys since till script st)))
        (reconcile_rows stream_keys since till st0
           (List.concat (List.map parse_trades_from_result (answered consumed)))).
Proof.
  induction fuel as [|fuel IH]; intros script st st0 Hsame.
  - exists []. split; [reflexivity | exact Hsame].
  - rewrite query_loop_S.
    destruct (execute_with_retry (offset st) (py_range QUERY_MAX_RETRIES) script)
      as [[out script'] evs] eqn:Hfetch.
    destruct (execute_with_retry_consumed _ _ _ _ _ _ Hfetch) as (c1 & -> & Hans).
    destruct out as [result | e |].
    + pose proof (page_step_same_data stream_keys since till (add_log evs st) st0 result Hsame)
        as Hp.
      destruct (page_step stream_keys since till (add_log evs st) result) as [st1 continue].
      simpl fst in Hp. destruct continue.
      * destruct (IH script' st1 _ Hp) as (c2 & Hc2 & Hdata).
        exists (c1 ++ c2). split.
        -- rewrite <- app_assoc. f_equal. exact Hc2.
        -- rewrite answered_app, Hans. simpl List.map. simpl List.concat.
           rewrite reconcile_rows_app. exact Hdata.
      * exists c1. split; [reflexivity |]. rewrite Hans. simpl List.map. simpl List.concat.
        rewrite app_nil_r. exact Hp.
    + exists c1. split; [reflexivity |]. rewrite Hans. exact Hsame.
    + exists c1. split; [reflexivity |]. rewrite Hans. exact Hsame.
Qed.

(** Every record is in exactly one of the three classes. *)
Lemma one_class (stream_keys : gset key) (since till : json) (row : trade_row) :
  let m := is_matched stream_keys row in
  let b := is_boundary_excluded stream_keys since till row in
  let x := is_missed stream_keys since till row in
  (m = true /\ b = false /\ x = false) \/
  (m = false /\ b = true /\ x = false) \/
  (m = false /\ b = false /\ x = true).
Proof.
  unfold is_matched, is_boundary_excluded, is_missed.
  destruct (decide (query_key row ∈ stream_keys)) as [Hin | Hout].
  - rewrite (bool_decide_eq_true_2 _ Hin).
    rewrite (bool_decide_eq_false_2 (query_key row ∉ stream_keys)) by auto.
    left. repeat split.
  - rewrite (bool_decide_eq_false_2 _ Hout).
    rewrite (bool_decide_eq_true_2 (query_key row ∉ stream_keys)) by exact Hout.
    destruct (_at_time_boundary _ _ _); simpl; [right; left | right; right]; repeat split.
Qed.

(** The counters of the reconciler on a list of records, from the
    initial state. *)
Lemma reconcile_rows_counts (stream_keys : gset key) (since till : json)
    (rows : list trade_row) :
  let st := reconcile_rows stream_keys since till query_state_init rows in
  query_file st = List.map row_dict rows /\
  total_query_count st = Z.of_nat (length rows) /\
  total_query_count st =
    matched_count stream_keys rows + boundary_excluded_count st + mismatch_count st /\
  boundary_excluded_count st =
    Z.of_nat (length (List.filter (is_boundary_excluded stream_keys since till) rows)) /\
  mismatch_count st =
    Z.of_nat (length (List.filter (is_missed stream_keys since till) rows)).
Proof.
  destruct (reconcile_rows_fields stream_keys since till rows query_state_init)
    as (Ht & Hq & Hm & _ & Hb).
  assert (Hinit : conserved stream_keys [] query_state_init) by (split; reflexivity).
  destruct (reconcile_rows_conserved stream_keys since till rows [] query_state_init Hinit)
    as [_ Hsum].
  simpl in *. rewrite Hq, Hm, Hb. rewrite Ht in *. repeat split; try reflexivity.
  rewrite Hsum. rewrite Hm, Hb. reflexivity.
Qed.

(** C5.  Every processed query record is counted in exactly one of the
    three classes.  After the reconciler has processed any list of
    records, and in whatever way the paginated run ends on the records
    of the pages it has read, [total_query_count] is the number of
    records processed, and it equals the number of matched records plus
    [boundary_excluded_count] plus [mismatch_count]; the two counters
    are the numbers of boundary-excluded and of missed records; and a
    record is in exactly one of the classes matched, boundary-excluded
    and missed.  (The program keeps no counter of the matched records;
    they are counted over the records processed.) *)
Theorem conservation (stream_keys : gset key) (since till : json) :
  (forall rows : list trade_row,
     let st := reconcile_rows stream_keys since till query_state_init rows in
     total_query_count st = Z.of_nat (length rows) /\
     total_query_count st =
       matched_count stream_keys rows + boundary_excluded_count st + mismatch_count st /\
     boundary_excluded_count st =
       Z.of_nat (length (List.filter (is_boundary_excluded stream_keys since till) rows)) /\
     mismatch_count st =
       Z.of_nat (length (List.filter (is_missed stream_keys since till) rows))) /\
  (forall (fuel : nat) (script : list response),
     let run := query_loop fuel stream_keys since till script query_state_init in
     let st := final_state (fst run) in
     exists consumed : list response,
       script = consumed ++ snd run /\
       let rows := List.concat (List.map parse_trades_from_result (answered consumed)) in
       query_file st = List.map row_dict rows /\
       total_query_count st = Z.of_nat (length rows) /\
       total_query_count st =
         matched_count stream_keys rows + boundary_excluded_count st + mismatch_count st /\
       boundary_excluded_count st =
         Z.of_nat (length (List.filter (is_boundary_excluded stream_keys since till) rows)) /\
       mismatch_count st =
         Z.of_nat (length (List.filter (is_missed stream_keys since till) rows))) /\
  (forall row : trade_row,
     let m := is_matched stream_keys row in
     let b := is_boundary_excluded stream_keys since till row in
     let x := is_missed stream_keys since till row in
     (m = true /\ b = false /\ x = false) \/
     (m = false /\ b = true /\ x = false) \/
     (m = false /\ b = false /\ x = true)).
Proof.
  split; [| split].
  - intros rows. apply (reconcile_rows_counts stream_keys since till rows).
  - intros fuel script run st.
    destruct (query_loop_consumed stream_keys since till fuel script
                query_state_init query_state_init (same_data_refl _))
      as (consumed & Hscript & Hm & Hb & Ht & _ & _ & Hq & _).
    exists consumed. split; [exact Hscript |]. intros rows.
    destruct (reconcile_rows_counts stream_keys since till rows)
      as (Hq' & Ht' & Hsum & Hb' & Hm').
    subst st run. fold rows in Hm, Hb, Ht, Hq.
    rewrite Hq, Ht, Hb, Hm. repeat split; assumption.
  - intros row. apply one_class.
Qed.

(** X15.  Pagination is transparent: when the endpoint answers with full
    pages and then a short one, the run ends with the counters and the
    two sinks that the reconciler produces on the records of all these
    pages taken as one list. *)
Theorem pagination_is_transparent (state : StreamState)
    (full : list py_result) (short : py_result) (rest : list response) :
  opt_truthy (min_time state) = true -> opt_truthy (max_time state) = true ->
  Forall (fun page => QUERY_LIMIT <= Z.of_nat (length (parse_trades_from_result page))) full ->
  Z.of_nat (length (parse_trades_from_result short)) < QUERY_LIMIT ->
  exists since till st share,
    min_time state = Some since /\ max_time state = Some till /\
    run_query_and_compare state (List.map Response full ++ Response short :: rest)
    = Ran (Finished st) rest share /\
    same_data st
      (reconcile_rows (load_stream_keys (_file state)) since till query_state_init
         (List.concat (List.map parse_trades_from_result (full ++ [short])))).
Proof.
  intros Hmin Hmax Hfull Hshort. unfold run_query_and_compare.
  destruct (min_time state) as [since|]; [| discriminate].
  destruct (max_time state) as [till|]; [| discriminate].
  simpl in Hmin, Hmax. rewrite Hmin, Hmax. cbn [negb orb].
  destruct (query_loop_pages_same_data (load_stream_keys (_file state)) since till short rest
              full Hfull Hshort
              (S (length (List.map Response full ++ Response short :: rest)))
              query_state_init query_state_init) as (st & -> & Hdata).
  { rewrite length_app, length_map. lia. }
  { apply same_data_refl. }
  destruct (missing_share_Ok st) as (share & ->).
  exists since, till, st, share.
  split; [reflexivity | split; [reflexivity | split; [reflexivity | exact Hdata]]].
Qed.

Lemma pagination_is_transparent_witness :
  let state := {| min_time := Some (JStr "2024-01-01T00:00:05Z");
                  max_time := Some (JStr "2024-01-01T00:00:10Z");
                  count := 2; _file := [] |} in
  let short := Plain (dex_payload
                        [dex_trade (JStr "2024-01-01T00:00:08Z") (JStr "S2") (JInt 0) (JInt 0)]) in
  exists since till st share,
    min_time state = Some since /\ max_time state = Some till /\
    run_query_and_compare state (List.map Response [full_page] ++ Response short :: [])
    = Ran (Finished st) [] share /\
    same_data st
      (reconcile_rows (load_stream_keys (_file state)) since till query_state_init
         (List.concat (List.map parse_trades_from_result ([full_page] ++ [short])))).
Proof.
  intros state short.
  apply (pagination_is_transparent state [full_page] short []).
  - reflexivity.
  - reflexivity.
  - constructor; [| constructor]. unfold full_page.
    erewrite parse_trades_repeat by reflexivity.
    rewrite Z2Nat.id; unfold QUERY_LIMIT; lia.
  - vm_compute. reflexivity.
Defined.

(** ** Retries and pauses across pages *)

(** [k] transient failures, then an exception of another kind. *)
Lemma execute_with_retry_other (off : Z) (rest : list response) (k : nat) :
  forall (a : nat),
    (a + k < Z.to_nat QUERY_MAX_RETRIES)%nat ->
    execute_with_retry off
      (List.map Z.of_nat (seq a (Z.to_nat QUERY_MAX_RETRIES - a)))
      (repeat TransientFailure k ++ OtherFailure :: rest)
    = (FetchRaised OtherError, rest, retry_events off (Z.of_nat a + 1) k ++ [Request off]).
Proof.
  induction k as [|k IH]; intros a Ha.
  - destruct (Z.to_nat QUERY_MAX_RETRIES - a)%nat as [|n] eqn:Hn; [lia |]. reflexivity.
  - destruct (Z.to_nat QUERY_MAX_RETRIES - a)%nat as [|n] eqn:Hn; [lia |].
    simpl. replace (Z.of_nat a <? QUERY_MAX_RETRIES - 1) with true
      by (symmetry; apply Z.ltb_lt; unfold QUERY_MAX_RETRIES in *; lia).
    replace n with (Z.to_nat QUERY_MAX_RETRIES - S a)%nat by lia.
    rewrite (IH (S a)) by lia.
    replace (Z.of_nat (S a) + 1) with (Z.of_nat a + 1 + 1) by lia. reflexivity.
Qed.

Lemma execute_with_retry_then_other (off : Z) (rest : list response) (k : nat) :
  (k < Z.to_nat QUERY_MAX_RETRIES)%nat ->
  execute_with_retry off (py_range QUERY_MAX_RETRIES)
    (repeat TransientFailure k ++ OtherFailure :: rest)
  = (FetchRaised OtherError, rest, retry_events off 1 k ++ [Request off]).
Proof. intros Hk. apply (execute_with_retry_other off rest k 0). lia. Qed.

Lemma execute_with_retry_then_answer (off : Z) (result : py_result) (rest : list response)
    (k : nat) :
  (k < Z.to_nat QUERY_MAX_RETRIES)%nat ->
  execute_with_retry off (py_range QUERY_MAX_RETRIES)
    (repeat TransientFailure k ++ Response result :: rest)
  = (Fetched result, rest, retry_events off 1 k ++ [Request off]).
Proof. intros Hk. apply (execute_with_retry_recovers off result rest k 0). lia. Qed.

(** X16.  An exception of [client.execute] that is not one of the three
    transport errors is not retried: also after earlier transient
    failures of the same page it leaves the loop at once, without a
    further pause, and the run is aborted with it. *)
Theorem other_failure_aborts_at_once (stream_keys : gset key) (since till : json)
    (fuel : nat) (st : query_state) (rest : list response) (k : nat) :
  (k < Z.to_nat QUERY_MAX_RETRIES)%nat ->
  let evs := retry_events (offset st) 1 k ++ [Request (offset st)] in
  query_loop (S fuel) stream_keys since till
    (repeat TransientFailure k ++ OtherFailure :: rest) st
  = (Aborted OtherError (add_log evs st), rest).
Proof.
  intros Hk evs. rewrite query_loop_S.
  rewrite (execute_with_retry_then_other (offset st) rest k Hk). reflexivity.
Qed.

Lemma other_failure_aborts_at_once_witness :
  query_loop 1 ∅ (JStr "a") (JStr "b")
    (repeat TransientFailure 2 ++ OtherFailure :: [TransientFailure]) query_state_init
  = (Aborted OtherError
       (add_log (retry_events 0 1 2 ++ [Request 0]) query_state_init),
     [TransientFailure]).
Proof.
  apply (other_failure_aborts_at_once ∅ (JStr "a") (JStr "b") 0 query_state_init
           [TransientFailure] 2).
  vm_compute. lia.
Defined.

(** X17.  Whatever the endpoint does, one page costs at most
    [QUERY_MAX_RETRIES] requests, all of them at the offset of the page,
    and at most 5 + 10 + 15 seconds of pauses. *)
Theorem retry_is_bounded (off : Z) (script : list response) :
  let evs := snd (execute_with_retry off (py_range QUERY_MAX_RETRIES) script) in
  Z.of_nat (length (requested_offsets evs)) <= QUERY_MAX_RETRIES /\
  Forall (fun o => o = off) (requested_offsets evs) /\
  total_sleep evs <= 30.
Proof.
  destruct script as [|[r| |] [|[r1| |] [|[r2| |] [|[r3| |] script]]]]; simpl;
    unfold QUERY_MAX_RETRIES, QUERY_RETRY_DELAY; repeat split; repeat constructor; lia.
Qed.

Lemma script_of_cons (x : nat * py_result) (pages : list (nat * py_result))
    (tail : list response) :
  script_of (x :: pages) ++ tail
  = repeat TransientFailure (fst x) ++ Response (snd x) :: (script_of pages ++ tail).
Proof. unfold script_of. simpl. rewrite <- !app_assoc. reflexivity. Qed.

Lemma query_loop_pages_retried (stream_keys : gset key) (since till : json)
    (short : py_result) (k : nat) (rest : list response) (pages : list (nat * py_result)) :
  Forall (fun x => (fst x < Z.to_nat QUERY_MAX_RETRIES)%nat /\
                   QUERY_LIMIT <= Z.of_nat (length (parse_trades_from_result (snd x)))) pages ->
  (k < Z.to_nat QUERY_MAX_RETRIES)%nat ->
  Z.of_nat (length (parse_trades_from_result short)) < QUERY_LIMIT ->
  forall (fuel : nat) (st : query_state),
    (length pages < fuel)%nat ->
    exists st',
      query_loop fuel stream_keys since till
        (script_of pages ++ repeat TransientFailure k ++ Response short :: rest) st
      = (Finished st', rest) /\
      log st' = log st ++ pages_log (offset st) pages
                ++ retry_events (offset st + QUERY_LIMIT * Z.of_nat (length pages)) 1 k
                ++ [Request (offset st + QUERY_LIMIT * Z.of_nat (length pages))].
Proof.
  intros Hpages Hk Hshort.
  induction Hpages as [|x pages [Hx Hfull] _ IH]; intros fuel st Hfuel;
    (destruct fuel as [|fuel]; [simpl in Hfuel; lia |]); rewrite query_loop_S.
  - simpl app.
    rewrite (execute_with_retry_then_answer (offset st) short rest k Hk).
    destruct (page_step_short stream_keys since till
                (add_log (retry_events (offset st) 1 k ++ [Request (offset st)]) st)
                short Hshort) as (st' & -> & _ & Hl).
    exists st'. split; [reflexivity |]. rewrite Hl. simpl length. simpl pages_log.
    replace (offset st + QUERY_LIMIT * Z.of_nat 0) with (offset st) by lia. reflexivity.
  - rewrite script_of_cons.
    rewrite (execute_with_retry_then_answer (offset st) (snd x) _ (fst x) Hx).
    destruct (page_step_full stream_keys since till
                (add_log (retry_events (offset st) 1 (fst x) ++ [Request (offset st)]) st)
                (snd x) Hfull) as (st1 & -> & Ho & Hl).
    destruct (IH fuel st1) as (st' & Hrun & Hlog); [simpl in Hfuel; lia |].
    exists st'. split; [exact Hrun |].
    rewrite Hlog, Hl, Ho. simpl log. simpl offset. simpl pages_log.
    replace (offset st + QUERY_LIMIT + QUERY_LIMIT * Z.of_nat (length pages))
      with (offset st + QUERY_LIMIT * Z.of_nat (length (x :: pages)))
      by (simpl length; lia).
    rewrite <- !app_assoc. reflexivity.
Qed.

(** X18.  Pagination with retries.  When every page is answered after
    fewer than [QUERY_MAX_RETRIES] transient failures, full pages being
    followed by a short one, the run finishes and its event log is
    exactly this: for each page in turn the failed requests, each
    followed by its growing pause, then the successful request, all at
    the offset of that page; a pause of 2 seconds after every full
    page and none after the last one.  A retry does not move the offset
    and every page has the full number of attempts again. *)
Theorem pagination_with_retries (state : StreamState)
    (pages : list (nat * py_result)) (k : nat) (short : py_result) (rest : list response) :
  opt_truthy (min_time state) = true -> opt_truthy (max_time state) = true ->
  Forall (fun x => (fst x < Z.to_nat QUERY_MAX_RETRIES)%nat /\
                   QUERY_LIMIT <= Z.of_nat (length (parse_trades_from_result (snd x)))) pages ->
  (k < Z.to_nat QUERY_MAX_RETRIES)%nat ->
  Z.of_nat (length (parse_trades_from_result short)) < QUERY_LIMIT ->
  exists st share,
    run_query_and_compare state
      (script_of pages ++ repeat TransientFailure k ++ Response short :: rest)
    = Ran (Finished st) rest share /\
    log st = pages_log 0 pages
             ++ retry_events (QUERY_LIMIT * Z.of_nat (length pages)) 1 k
             ++ [Request (QUERY_LIMIT * Z.of_nat (length pages))].
Proof.
  intros Hmin Hmax Hpages Hk Hshort. unfold run_query_and_compare.
  destruct (min_time state) as [since|]; [| discriminate].
  destruct (max_time state) as [till|]; [| discriminate].
  simpl in Hmin, Hmax. rewrite Hmin, Hmax. cbn [negb orb].
  destruct (query_loop_pages_retried (load_stream_keys (_file state)) since till short k rest
              pages Hpages Hk Hshort
              (S (length (script_of pages ++ repeat TransientFailure k ++ Response short :: rest)))
              query_state_init) as (st & -> & Hlog).
  { clear. rewrite length_app. unfold script_of.
    assert (length pages <= length (flat_map
              (fun x => repeat TransientFailure (fst x) ++ [Response (snd x)]) pages))%nat.
    { induction pages as [|x pages IH]; simpl; [lia |].
      rewrite length_app, length_app. simpl. lia. }
    lia. }
  destruct (missing_share_Ok st) as (share & ->).
  exists st, share. split; [reflexivity |]. exact Hlog.
Qed.

Lemma pagination_with_retries_witness :
  let state := {| min_time := Some (JStr "2024-01-01T00:00:05Z");
                  max_time := Some (JStr "2024-01-01T00:00:10Z");
                  count := 2; _file := [] |} in
  let short := Plain (dex_payload
                        [dex_trade (JStr "2024-01-01T00:00:08Z") (JStr "S2") (JInt 0) (JInt 0)]) in
  exists st share,
    run_query_and_compare state
      (script_of [(2%nat, full_page)] ++ repeat TransientFailure 3 ++ Response short :: [])
    = Ran (Finished st) [] share /\
    log st = [Request 0; Sleep 5; Request 0; Sleep 10; Request 0; Sleep 2;
              Request 25000; Sleep 5; Request 25000; Sleep 10; Request 25000; Sleep 15;
              Request 25000].
Proof.
  intros state short.
  apply (pagination_with_retries state [(2%nat, full_page)] 3 short []).
  - reflexivity.
  - reflexivity.
  - constructor; [| constructor]. split; [vm_compute; lia |]. cbn [snd]. unfold full_page.
    erewrite parse_trades_repeat by reflexivity.
    rewrite Z2Nat.id; unfold QUERY_LIMIT; lia.
  - vm_compute. lia.
  - vm_compute. reflexivity.
Defined.

(** ** The truncation to the second *)

Lemma remove_Z_app (a b : string) : remove_Z (a +:+ b) = remove_Z a +:+ remove_Z b.
Proof.
  induction a as [|c a IH]; simpl; [reflexivity |].
  destruct (Ascii.eqb c "Z"); simpl; rewrite IH; reflexivity.
Qed.

Lemma remove_Z_id (p : string) : string_mem "Z"%char p = false -> remove_Z p = p.
Proof.
  induction p as [|c p IH]; cbn [string_mem remove_Z]; [reflexivity |].
  rewrite (Ascii.eqb_sym "Z"%char c). destruct (Ascii.eqb c "Z"); cbn [orb]; [discriminate |].
  intros H. rewrite (IH H). reflexivity.
Qed.

Lemma lstrip_clean (p y : string) : starts_clean p = true -> lstrip (p +:+ y) = p +:+ y.
Proof.
  destruct p as [|c p]; simpl; [discriminate |].
  destruct (is_space c); [discriminate | reflexivity].
Qed.

Lemma rstrip_clean (p y : string) : ends_clean p = true -> rstrip (p +:+ y) = p +:+ rstrip y.
Proof.
  induction p as [|c p IH]; [discriminate |].
  destruct p as [|c' p'].
  - simpl. destruct (is_space c); [discriminate | reflexivity].
  - intros H. change (ends_clean (String c (String c' p'))) with (ends_clean (String c' p')) in H.
    change (rstrip (String c (String c' p') +:+ y))
      with (let r := rstrip (String c' p' +:+ y) in
            if is_space c && String.eqb r EmptyString then EmptyString else String c r).
    rewrite (IH H). simpl. rewrite andb_false_r. reflexivity.
Qed.

Lemma slice_to_app (p y : string) : slice_to (String.length p) (p +:+ y) = p.
Proof.
  unfold slice_to. induction p as [|c p IH]; simpl; [destruct y; reflexivity |].
  rewrite IH. reflexivity.
Qed.

Lemma string_length_app (a b : string) :
  String.length (a +:+ b) = (String.length a + String.length b)%nat.
Proof. induction a as [|c a IH]; simpl; [reflexivity | rewrite IH; reflexivity]. Qed.

Lemma to_sec_prefix (p suffix : string) :
  String.length p = 19%nat -> string_mem "Z"%char p = false ->
  starts_clean p = true -> ends_clean p = true ->
  to_sec (JStr (p +:+ suffix)) = p.
Proof.
  intros Hlen HZ Hs He. unfold to_sec, strip. simpl py_str.
  rewrite remove_Z_app, (remove_Z_id p HZ), (lstrip_clean p _ Hs), (rstrip_clean p _ He).
  rewrite string_length_app, Hlen. simpl Nat.leb.
  rewrite <- Hlen. apply slice_to_app.
Qed.

(** X19.  The truncation keeps the second and nothing else: for a
    timestamp that starts with 19 characters without [Z] and without
    white space at either end, whatever follows (fraction of a second,
    zone suffix) is dropped.  Two timestamps of the same second are
    therefore at the same boundary, whichever of them is the block time
    and whichever is [since] or [till]. *)
Theorem to_sec_keeps_the_second (p s1 s2 : string) (other : json) :
  String.length p = 19%nat -> string_mem "Z"%char p = false ->
  starts_clean p = true -> ends_clean p = true ->
  to_sec (JStr (p +:+ s1)) = p /\
  (py_truthy other = true ->
   _at_time_boundary (JStr (p +:+ s1)) (JStr (p +:+ s2)) other = true /\
   _at_time_boundary (JStr (p +:+ s1)) other (JStr (p +:+ s2)) = true).
Proof.
  intros Hlen HZ Hs He. split; [apply to_sec_prefix; assumption |].
  intros Ho.
  assert (Ht : forall s, py_truthy (JStr (p +:+ s)) = true).
  { intros s. destruct p; [discriminate | reflexivity]. }
  unfold _at_time_boundary. rewrite !Ht, Ho. cbn [negb orb].
  rewrite !to_sec_prefix by assumption. rewrite String.eqb_refl.
  split; [reflexivity | apply orb_true_r].
Qed.

Lemma to_sec_keeps_the_second_witness :
  to_sec (JStr ("2024-01-01T00:00:05" +:+ ".123456Z")) = "2024-01-01T00:00:05" /\
  (py_truthy (JStr "2024-01-01T00:09:59Z") = true ->
   _at_time_boundary (JStr ("2024-01-01T00:00:05" +:+ ".123456Z"))
                     (JStr ("2024-01-01T00:00:05" +:+ "Z")) (JStr "2024-01-01T00:09:59Z") = true /\
   _at_time_boundary (JStr ("2024-01-01T00:00:05" +:+ ".123456Z"))
                     (JStr "2024-01-01T00:09:59Z") (JStr ("2024-01-01T00:00:05" +:+ "Z")) = true).
Proof.
  apply (to_sec_keeps_the_second "2024-01-01T00:00:05" ".123456Z" "Z"
           (JStr "2024-01-01T00:09:59Z")); reflexivity.
Defined.

(** ** What the comparison reports *)

Lemma filter_none {A : Type} (f : A -> bool) (l : list A) :
  Forall (fun x => f x = false) l -> List.filter f l = [].
Proof.
  induction 1 as [|x l Hx _ IH]; simpl; [reflexivity |]. rewrite Hx. exact IH.
Qed.

(** X20.  No false alarm on a complete stream: when every record of
    the query was delivered by the stream with the same signature and
    the same integer indexes, nothing is counted as a mismatch or as
    boundary-excluded and the mismatch sink stays empty, whatever the
    block times and the time range are. *)
Theorem complete_stream_no_mismatch (rows qrows : list trade_row) (st : StreamState)
    (since till : json) :
  collect_rows rows StreamState_new = Ok st ->
  Forall (fun q => exists r n m,
            In r rows /\ signature r = signature q /\
            txn_index r = JInt n /\ txn_index q = JInt n /\
            trade_index r = JInt m /\ trade_index q = JInt m) qrows ->
  let out := reconcile_rows (load_stream_keys (_file st)) since till query_state_init qrows in
  mismatch_count out = 0 /\ mismatch_file out = [] /\ boundary_excluded_count out = 0 /\
  total_query_count out = Z.of_nat (length qrows).
Proof.
  intros Hrun Hall.
  assert (Hkeys : Forall (fun q => bool_decide (query_key q ∉ load_stream_keys (_file st))
                                   = false) qrows).
  { eapply Forall_impl; [exact Hall |]. intros q (r & n & m & Hin & Hsig & Hrn & Hqn & Hrm & Hqm).
    apply bool_decide_eq_false_2. intros Hnot. apply Hnot.
    replace (query_key q) with (query_key r)
      by (unfold query_key; rewrite Hsig, Hrn, Hqn, Hrm, Hqm; reflexivity).
    eapply present_index_matched; eassumption. }
  destruct (reconcile_rows_fields (load_stream_keys (_file st)) since till qrows
              query_state_init) as (Ht & _ & Hm & Hmf & Hb).
  simpl. rewrite Ht, Hm, Hmf, Hb.
  rewrite !filter_none; [repeat split | |];
    (eapply Forall_impl; [exact Hkeys |]); intros q Hq;
    unfold is_missed, is_boundary_excluded; rewrite Hq; reflexivity.
Qed.

Lemma complete_stream_no_mismatch_witness :
  let r1 := {| blocktime := JStr "2024-01-01T00:00:05Z"; signature := "S1";
               txn_index := JInt 0; trade_index := JInt 0 |} in
  let r2 := {| blocktime := JStr "2024-01-01T00:00:07Z"; signature := "S2";
               txn_index := JInt 3; trade_index := JInt 1 |} in
  let st := {| min_time := Some (JStr "2024-01-01T00:00:05Z");
               max_time := Some (JStr "2024-01-01T00:00:07Z");
               count := 2;
               _file := [CsvRow "2024-01-01T00:00:05Z" "S1" "0" "0";
                         CsvRow "2024-01-01T00:00:07Z" "S2" "3" "1"] |} in
  let out := reconcile_rows (load_stream_keys (_file st))
               (JStr "2024-01-01T00:00:05Z") (JStr "2024-01-01T00:00:07Z")
               query_state_init [r2; r1] in
  mismatch_count out = 0 /\ mismatch_file out = [] /\ boundary_excluded_count out = 0 /\
  total_query_count out = Z.of_nat (length [r2; r1]).
Proof.
  intros r1 r2 st.
  apply (complete_stream_no_mismatch [r1; r2] [r2; r1] st).
  - reflexivity.
  - repeat constructor.
    + exists r2, 3, 1. repeat split. right. left. reflexivity.
    + exists r1, 0, 0. repeat split. left. reflexivity.
Defined.

(** X21.  A miss is reported: a query record whose signature the stream
    never delivered and whose block time is not at a boundary is written
    to the mismatch sink and counted. *)
Theorem missed_record_is_reported (rows qrows : list trade_row) (st : StreamState)
    (since till : json) (q : trade_row) :
  collect_rows rows StreamState_new = Ok st ->
  In q qrows ->
  (forall r, In r rows -> signature r <> signature q) ->
  _at_time_boundary (blocktime q) since till = false ->
  let out := reconcile_rows (load_stream_keys (_file st)) since till query_state_init qrows in
  In (row_dict q) (mismatch_file out) /\ 0 < mismatch_count out.
Proof.
  intros Hrun Hq Hsig Hbound.
  assert (Hmiss : is_missed (load_stream_keys (_file st)) since till q = true).
  { unfold is_missed. rewrite Hbound. rewrite bool_decide_eq_true_2; [reflexivity |].
    intros Hin. apply load_stream_keys_spec in Hin. destruct Hin as (line & Hline & Hkey).
    rewrite (collect_rows_file _ _ _ Hrun) in Hline. simpl in Hline.
    apply in_map_iff in Hline. destruct Hline as (r & <- & Hr).
    unfold stream_key, stream_line, query_key in Hkey. simpl in Hkey.
    injection Hkey as Hs _ _. exact (Hsig r Hr Hs). }
  assert (Hin : In q (List.filter (is_missed (load_stream_keys (_file st)) since till) qrows)).
  { apply List.filter_In. split; assumption. }
  destruct (reconcile_rows_fields (load_stream_keys (_file st)) since till qrows
              query_state_init) as (_ & _ & Hm & Hmf & _).
  simpl. rewrite Hm, Hmf. simpl. split.
  - apply in_map, Hin.
  - destruct (List.filter _ qrows); [destruct Hin | simpl; lia].
Qed.

Lemma missed_record_is_reported_witness :
  let r1 := {| blocktime := JStr "2024-01-01T00:00:05Z"; signature := "S1";
               txn_index := JInt 0; trade_index := JInt 0 |} in
  let r2 := {| blocktime := JStr "2024-01-01T00:00:09Z"; signature := "S2";
               txn_index := JInt 3; trade_index := JInt 1 |} in
  let q := {| blocktime := JStr "2024-01-01T00:00:07Z"; signature := "S9";
              txn_index := JInt 0; trade_index := JInt 0 |} in
  let st := {| min_time := Some (JStr "2024-01-01T00:00:05Z");
               max_time := Some (JStr "2024-01-01T00:00:09Z");
               count := 2;
               _file := [CsvRow "2024-01-01T00:00:05Z" "S1" "0" "0";
                         CsvRow "2024-01-01T00:00:09Z" "S2" "3" "1"] |} in
  let out := reconcile_rows (load_stream_keys (_file st))
               (JStr "2024-01-01T00:00:05Z") (JStr "2024-01-01T00:00:09Z")
               query_state_init [r1; q; r2] in
  In (row_dict q) (mismatch_file out) /\ 0 < mismatch_count out.
Proof.
  intros r1 r2 q st.
  apply (missed_record_is_reported [r1; r2] [r1; q; r2] st).
  - reflexivity.
  - right. left. reflexivity.
  - intros r [<- | [<- | []]]; discriminate.
  - reflexivity.
Defined.

(** X22.  Stopping the live leg earlier loses nothing of what it had:
    the sink after the first payloads is a prefix of the sink after
    more payloads, and [count] does not go down. *)
Theorem live_leg_keeps_what_it_has (first later : list py_result) (st : StreamState) :
  subscribe_and_collect (first ++ later) StreamState_new = Ok st ->
  exists st1 more,
    subscribe_and_collect first StreamState_new = Ok st1 /\
    _file st = _file st1 ++ more /\ count st1 <= count st.
Proof.
  rewrite !subscribe_and_collect_rows, List.map_app, List.concat_app, collect_rows_app.
  intros H. exc_inv H. exists v. eexists. split; [exact Hget |].
  split; [apply (collect_rows_file _ _ _ H) |].
  rewrite (collect_rows_count _ _ _ H). lia.
Qed.

Lemma live_leg_keeps_what_it_has_witness :
  let p1 := ExecutionResult
              (dex_payload [dex_trade (JStr "2024-01-01T00:00:05Z") (JStr "S1") (JInt 0) (JInt 0)]) in
  let p2 := ExecutionResult
              (dex_payload [dex_trade (JStr "2024-01-01T00:00:03Z") (JStr "S2") (JInt 1) (JInt 0)]) in
  let st := {| min_time := Some (JStr "2024-01-01T00:00:03Z");
               max_time := Some (JStr "2024-01-01T00:00:05Z");
               count := 2;
               _file := [CsvRow "2024-01-01T00:00:05Z" "S1" "0" "0";
                         CsvRow "2024-01-01T00:00:03Z" "S2" "1" "0"] |} in
  exists st1 more,
    subscribe_and_collect [p1] StreamState_new = Ok st1 /\
    _file st = _file st1 ++ more /\ count st1 <= count st.
Proof.
  intros p1 p2 st. apply (live_leg_keeps_what_it_has [p1] [p2] st). reflexivity.
Defined.
